(** * Heritage reservations: the availability / booking-conflict engine

    A shallow embedding of [app.py]: the [RoomType] and [Reservation] models,
    [Reservation.overlaps], [is_available], the [book_room] and [ota_webhook]
    routes, the [admin_reconcile] scan and the two 30-day availability feeds
    ([api_calendar_events], [ota_push_availability]).

    Conventions of the embedding.
    - A [datetime.date] is represented by its proleptic Gregorian ordinal
      (what [date.toordinal()] returns), an integer; comparison of dates is
      comparison of ordinals and [d + timedelta(days=1)] is [d + 1].
    - The database is a record holding the rows of the two tables the engine
      reads and writes; rows are kept in insertion order.
    - A route is a function from the store and the request to the new store
      and an outcome (one constructor per [return] of the route). *)

From Stdlib Require Import ZArith List Bool Lia.
From stdpp Require Import base option list strings gmap fin_maps sorting.
Import ListNotations.

Local Open Scope Z_scope.

(** ** Dates *)

Module Date.

Definition is_leap (y : Z) : bool :=
  (y mod 4 =? 0) && (negb (y mod 100 =? 0) || (y mod 400 =? 0)).

Definition days_before_year (year : Z) : Z :=
  let y := year - 1 in y * 365 + y / 4 - y / 100 + y / 400.

Definition days_before_month (year month : Z) : Z :=
  nth (Z.to_nat month)
      [0; 0; 31; 59; 90; 120; 151; 181; 212; 243; 273; 304; 334] 0
  + (if (2 <? month) && is_leap year then 1 else 0).

(** [date(y, m, d).toordinal()]. *)
Definition ymd (y m d : Z) : Z :=
  days_before_year y + days_before_month y m + d.

End Date.

(** ** Models *)

(** [class RoomType(db.Model)]: the columns the engine reads. *)
Record RoomType := mkRoomType {
  rt_id : Z;
  rt_name : string;
  capacity : Z;
  quantity : Z
}.

(** [class Reservation(db.Model)]; [created_at] (a wall-clock default) is
    read by no function below and is left out. *)
Record Reservation := mkReservation {
  res_id : Z;
  room_type_id : Z;
  source : string;
  external_id : option string;
  guest_name : string;
  guest_email : string;
  check_in : Z;
  check_out : Z
}.

(** The two tables. *)
Record Store := mkStore {
  room_types : list RoomType;
  reservations : list Reservation
}.

(** [Reservation.overlaps(self, start, end)] *)
Definition overlaps (self : Reservation) (start end_ : Z) : bool :=
  negb ((check_out self <=? start) || (check_in self >=? end_)).

(** The relationship [room_type.reservations]: the reservation rows whose
    foreign key is this room type. *)
Definition rt_reservations (st : Store) (rt : RoomType) : list Reservation :=
  List.filter (fun r => room_type_id r =? rt_id rt) (reservations st).

(** [RoomType.query.get(id)] *)
Definition RoomType_get (st : Store) (id : Z) : option RoomType :=
  List.find (fun rt => rt_id rt =? id) (room_types st).

(** ** Availability check *)

(** The inner loop of [is_available]:
    [count = 0; for r in room_type.reservations: if r.overlaps(..): count += 1] *)
Definition count_overlapping (rs : list Reservation) (day_start day_end : Z) : Z :=
  fold_left (fun count r => if overlaps r day_start day_end then count + 1 else count)
            rs 0.

(** The [while d < end_date] loop of [is_available]; [fuel] bounds the number
    of iterations and [is_available] supplies the number of days of the range. *)
Fixpoint is_available_loop (rs : list Reservation) (qty : Z)
         (fuel : nat) (d end_date : Z) : bool * option Z :=
  match fuel with
  | O => (true, None)
  | S fuel' =>
      if d <? end_date then
        let day_start := d in
        let day_end := d + 1 in
        let count := count_overlapping rs day_start day_end in
        if count >=? qty then (false, Some d)
        else is_available_loop rs qty fuel' (d + 1) end_date
      else (true, None)
  end.

(** [is_available(room_type, start_date, end_date)] *)
Definition is_available (st : Store) (room_type : RoomType)
           (start_date end_date : Z) : bool * option Z :=
  is_available_loop (rt_reservations st room_type) (quantity room_type)
                    (Z.to_nat (end_date - start_date)) start_date end_date.

(** ** Occupancy, as the specification words it *)

(** A reservation covers day [d] when [check_in <= d < check_out]. *)
Definition covers (r : Reservation) (d : Z) : bool :=
  (check_in r <=? d) && (d <? check_out r).

(** The reservations of a room type covering a day, in row order. *)
Definition covering (st : Store) (rt : RoomType) (d : Z) : list Reservation :=
  List.filter (fun r => covers r d) (rt_reservations st rt).

Definition occupancy (st : Store) (rt : RoomType) (d : Z) : Z :=
  Z.of_nat (length (covering st rt d)).

(** ** Writing a reservation row *)

(** The integer primary key given to a new row: one more than the largest
    key in use (1 in an empty table), as SQLite, the default backend of
    [DATABASE_URL], assigns it. *)
Definition next_id (rs : list Reservation) : Z :=
  1 + fold_left Z.max (map res_id rs) 0.

(** [res = Reservation(...); db.session.add(res); db.session.commit()] *)
Definition add_commit (st : Store) (rt : Z) (src : string) (ext : option string)
           (name email : string) (ci co : Z) : Store * Reservation :=
  let res := mkReservation (next_id (reservations st)) rt src ext name email ci co in
  (mkStore (room_types st) (reservations st ++ [res]), res).

(** ** Direct booking: [book_room] *)

(** The posted form. [form_name] and [form_email] are the fields after
    [.strip()]; a date field is [Some d] when [parse_date(..).date()] returns
    [d] and [None] when it raises. *)
Record BookingForm := mkBookingForm {
  form_name : string;
  form_email : string;
  form_check_in : option Z;
  form_check_out : option Z
}.

Inductive Method :=
| GET
| POST (form : BookingForm).

Inductive BookOutcome :=
| BookNotFound                              (* get_or_404 *)
| InvalidDateFormat                         (* 'Invalid date format' *)
| CheckOutMustBeAfterCheckIn                (* 'Check-out must be after check-in' *)
| NotAvailable (blocked_day : option Z)     (* 'Not available on {blocked_day}' *)
| Confirmed (ref : Z)                       (* 'Reservation confirmed (Ref: ..)' *)
| RenderForm.                               (* GET *)

Definition book_room (st : Store) (room_type_id : Z) (m : Method)
  : Store * BookOutcome :=
  match RoomType_get st room_type_id with
  | None => (st, BookNotFound)
  | Some rt =>
      match m with
      | POST form =>
          match form_check_in form, form_check_out form with
          | Some check_in, Some check_out =>
              if check_in >=? check_out then (st, CheckOutMustBeAfterCheckIn)
              else
                match is_available st rt check_in check_out with
                | (false, blocked_day) => (st, NotAvailable blocked_day)
                | (true, _) =>
                    let (st', res) :=
                      add_commit st (rt_id rt) "direct" None
                                 (form_name form) (form_email form)
                                 check_in check_out in
                    (st', Confirmed (res_id res))
                end
          | _, _ => (st, InvalidDateFormat)
          end
      | GET => (st, RenderForm)
      end
  end.

(** ** Channel bookings: [ota_webhook] *)

(** A JSON body holding every key of [required]. The date fields are the
    results of [parse_date(..).date()] as in [BookingForm]. *)
Record WebhookData := mkWebhookData {
  ota : string;
  data_external_id : option string;
  data_room_type_id : Z;
  data_guest_name : string;
  data_guest_email : string;
  data_check_in : option Z;
  data_check_out : option Z
}.

Inductive WebhookOutcome :=
| MissingFields                             (* 400 *)
| Duplicate (reservation_id : Z)            (* 200 *)
| InvalidRoomType                           (* 400 *)
| InvalidDates                              (* 400 *)
| Rejected (blocked : option Z)             (* 409 *)
| Accepted (reservation_id : Z).            (* 201 *)

(** The idempotency key of a row. *)
Definition has_key (src : string) (ext : option string) (r : Reservation) : bool :=
  bool_decide (source r = src) && bool_decide (external_id r = ext).

(** [Reservation.query.filter_by(source=.., external_id=..).first()] *)
Definition find_existing (st : Store) (src : string) (ext : option string)
  : option Reservation :=
  List.find (has_key src ext) (reservations st).

(** The request body is [None] when [request.get_json()] is empty or lacks
    one of the required keys. *)
Definition ota_webhook (st : Store) (body : option WebhookData)
  : Store * WebhookOutcome :=
  match body with
  | None => (st, MissingFields)
  | Some data =>
      match find_existing st (ota data) (data_external_id data) with
      | Some existing => (st, Duplicate (res_id existing))
      | None =>
          match RoomType_get st (data_room_type_id data) with
          | None => (st, InvalidRoomType)
          | Some rt =>
              match data_check_in data, data_check_out data with
              | Some check_in, Some check_out =>
                  match is_available st rt check_in check_out with
                  | (false, blocked) => (st, Rejected blocked)
                  | (true, _) =>
                      let (st', res) :=
                        add_commit st (rt_id rt) (ota data) (data_external_id data)
                                   (data_guest_name data) (data_guest_email data)
                                   check_in check_out in
                      (st', Accepted (res_id res))
                  end
              | _, _ => (st, InvalidDates)
              end
          end
      end
  end.

(** ** Sequential service of requests *)

Inductive Request :=
| BookRoom (room_type_id : Z) (m : Method)
| OtaWebhook (body : option WebhookData).

Definition handle (st : Store) (req : Request) : Store :=
  match req with
  | BookRoom id m => fst (book_room st id m)
  | OtaWebhook body => fst (ota_webhook st body)
  end.

Definition serve (st : Store) (reqs : list Request) : Store :=
  fold_left handle reqs st.

(** ** Reconciliation: [admin_reconcile] *)

(** One element of [conflicts]. *)
Record Conflict := mkConflict {
  c_room_type : RoomType;
  c_date : Z;
  c_count : Z;
  c_reservations : list Reservation
}.

(** [date_map.setdefault(d, []).append(r)]. [date_map] is a dictionary from
    days to lists of rows; the order in which [date_map.items()] yields its
    entries is not kept by the finite map. *)
Definition date_map_add (date_map : gmap Z (list Reservation))
           (d : Z) (r : Reservation) : gmap Z (list Reservation) :=
  <[d := default [] (date_map !! d) ++ [r]]> date_map.

(** [d = r.check_in; while d < r.check_out: ..; d += timedelta(days=1)] *)
Fixpoint span_loop (fuel : nat) (d : Z) (r : Reservation)
         (date_map : gmap Z (list Reservation)) : gmap Z (list Reservation) :=
  match fuel with
  | O => date_map
  | S fuel' =>
      if d <? check_out r
      then span_loop fuel' (d + 1) r (date_map_add date_map d r)
      else date_map
  end.

Definition add_span (date_map : gmap Z (list Reservation)) (r : Reservation)
  : gmap Z (list Reservation) :=
  span_loop (Z.to_nat (check_out r - check_in r)) (check_in r) r date_map.

(** [date_map = {}; for r in rt.reservations: ...] *)
Definition build_date_map (rs : list Reservation) : gmap Z (list Reservation) :=
  fold_left add_span rs ∅.

(** The body of the loop over [date_map.items()]:
    [if len(lst) > rt.quantity: conflicts.append({..})] *)
Definition conflict_of (rt : RoomType) (item : Z * list Reservation) : list Conflict :=
  let (d, lst) := item in
  if Z.of_nat (length lst) >? quantity rt
  then [mkConflict rt d (Z.of_nat (length lst)) lst]
  else [].

(** [for d, lst in date_map.items(): ...] *)
Definition rt_conflicts (rt : RoomType) (date_map : gmap Z (list Reservation))
  : list Conflict :=
  flat_map (conflict_of rt) (map_to_list date_map).

(** The [conflicts] list handed to the template, for an authenticated
    caller; [RoomType.query.all()] is the room type table. *)
Definition admin_reconcile (st : Store) : list Conflict :=
  flat_map (fun rt => rt_conflicts rt (build_date_map (rt_reservations st rt)))
           (room_types st).

(** The entries of a scan result that name a given room type and day. *)
Definition entries_for (rt : RoomType) (d : Z) (cs : list Conflict) : list Conflict :=
  List.filter (fun c => (rt_id (c_room_type c) =? rt_id rt) && (c_date c =? d)) cs.

(** ** The 30-day availability feeds *)

(** [sum(1 for r in rt.reservations if r.overlaps(day_start, day_end))] *)
Definition sum_overlapping (rs : list Reservation) (day_start day_end : Z) : Z :=
  fold_right Z.add 0
             (map (fun _ => 1) (List.filter (fun r => overlaps r day_start day_end) rs)).

(** [range(0, 30)] *)
Definition range30 : list Z := map Z.of_nat (seq 0 30).

(** One element of [snapshot] in [ota_push_availability]. *)
Record SnapshotEntry := mkSnapshotEntry {
  snap_date : Z;
  snap_available : Z
}.

(** [ota_push_availability]: the [snapshot] list, [None] for the 404 of
    [get_or_404]. [today] stands for [date.today()]. *)
Definition ota_push_availability (st : Store) (today : Z) (ota_name : string)
           (room_type_id : Z) : option (list SnapshotEntry) :=
  match RoomType_get st room_type_id with
  | None => None
  | Some rt =>
      Some (map (fun i =>
                   let d := today + i in
                   let count := sum_overlapping (rt_reservations st rt) d (d + 1) in
                   let available := Z.max 0 (quantity rt - count) in
                   mkSnapshotEntry d available)
                range30)
  end.

(** An element of the [events] list of [api_calendar_events]: a reservation
    event, or the availability marker of a day. *)
Inductive CalendarEvent :=
| ReservationEvent (id : Z) (title : string) (start end_ : Z) (src : string)
| AvailabilityMarker (d : Z) (available : Z) (background : bool).

Definition api_calendar_events (st : Store) (today : Z) (room_type_id : Z)
  : option (list CalendarEvent) :=
  match RoomType_get st room_type_id with
  | None => None
  | Some rt =>
      let events :=
        map (fun r => ReservationEvent (res_id r)
                        (guest_name r ++ " (" ++ source r ++ ")")%string
                        (check_in r) (check_out r) (source r))
            (rt_reservations st rt) in
      Some (events ++
            map (fun i =>
                   let d := today + i in
                   let day_start := d in
                   let day_end := d + 1 in
                   let count := sum_overlapping (rt_reservations st rt) day_start day_end in
                   let available := Z.max 0 (quantity rt - count) in
                   AvailabilityMarker d available (available =? 0))
                range30)
  end.

(** The availability markers of an event list, in order. *)
Definition markers (events : list CalendarEvent) : list SnapshotEntry :=
  flat_map (fun e => match e with
                     | AvailabilityMarker d a _ => [mkSnapshotEntry d a]
                     | ReservationEvent _ _ _ _ _ => []
                     end) events.

(** ** Store-level properties *)

(** Primary key of the room type table: no two rows share an [id]. *)
Definition pk_unique (st : Store) : Prop :=
  NoDup (map rt_id (room_types st)).

(** The capacity invariant: on no day does a room type hold more reservations
    than it has units. *)
Definition capacity_invariant (st : Store) : Prop :=
  forall rt d, In rt (room_types st) -> occupancy st rt d <= quantity rt.

(** The rows carrying an idempotency key. *)
Definition rows_with_key (st : Store) (src : string) (ext : option string)
  : list Reservation :=
  List.filter (has_key src ext) (reservations st).

(** The number of rows of a room type booked for exactly the range
    [[s, e)]. *)
Definition span_count (st : Store) (rt : RoomType) (s e : Z) : nat :=
  length (List.filter (fun r => (check_in r =? s) && (check_out r =? e))
                      (rt_reservations st rt)).

(** The feed the specification describes: for each day of the 30-day window
    from [today], in order, [max(0, quantity - occupancy)]. *)
Definition availability_feed (st : Store) (rt : RoomType) (today : Z)
  : list SnapshotEntry :=
  map (fun i => mkSnapshotEntry (today + i)
                  (Z.max 0 (quantity rt - occupancy st rt (today + i))))
      range30.

(** Primary key of the reservation table: no two rows share an [id]. *)
Definition res_pk_unique (st : Store) : Prop :=
  NoDup (map res_id (reservations st)).

(** No idempotency key with a non-null [external_id] is carried by two
    rows. *)
Definition keys_unique (st : Store) : Prop :=
  forall src ext, (length (rows_with_key st src (Some ext)) <= 1)%nat.

(** Every row is a stay of at least one night. *)
Definition spans_valid (st : Store) : Prop :=
  Forall (fun r => check_in r < check_out r) (reservations st).

(** A request to the direct booking route. *)
Definition is_direct (req : Request) : bool :=
  match req with
  | BookRoom _ _ => true
  | OtaWebhook _ => false
  end.

(** ** Accounts and access control *)

(** [class User(UserMixin, db.Model)] *)
Record User := mkUser {
  user_id : Z;
  email : string;
  password_hash : string;
  role : string
}.

(** The two functions of the [bcrypt] object the [User] model calls.
    [generate_password_hash] draws a random salt: its first argument stands
    for that draw. *)
Class Bcrypt := {
  generate_password_hash : string -> string -> string;
  check_password_hash : string -> string -> bool
}.

(** What the library promises: a hash checks against the password it was
    made from, whatever the salt. *)
Definition bcrypt_sound `{Bcrypt} : Prop :=
  forall salt password,
    check_password_hash (generate_password_hash salt password) password = true.

(** A stand-in for the library, to run the routes on examples: the hash is
    the password itself and the salt is not used. *)
Definition toy_bcrypt : Bcrypt := {|
  generate_password_hash salt password := password;
  check_password_hash h password := String.eqb h password
|}.

(** [User.set_password(self, password)] *)
Definition set_password `{Bcrypt} (salt : string) (self : User) (password : string)
  : User :=
  mkUser (user_id self) (email self) (generate_password_hash salt password)
         (role self).

(** [User.check_password(self, password)] *)
Definition check_password `{Bcrypt} (self : User) (password : string) : bool :=
  check_password_hash (password_hash self) password.

(** The integer primary key given to a new user row (see [next_id]). *)
Definition next_user_id (users : list User) : Z :=
  1 + fold_left Z.max (map user_id users) 0.

(** [load_user(user_id)]: [User.query.get(int(user_id))] *)
Definition load_user (users : list User) (id : Z) : option User :=
  List.find (fun u => user_id u =? id) users.

(** [current_user]: the row [load_user] finds for the id kept in the
    session; [None] is the anonymous user ([is_authenticated] false). *)
Definition current_user (users : list User) (session : option Z) : option User :=
  match session with
  | Some id => load_user users id
  | None => None
  end.

(** What a guarded view answers. *)
Inductive Response (A : Type) :=
| Unauthorized                  (* login_manager.unauthorized() *)
| RedirectIndex                 (* flash('Unauthorized'); redirect(url_for('index')) *)
| Served (a : A).

Arguments Unauthorized {A}.
Arguments RedirectIndex {A}.
Arguments Served {A} a.

(** [login_required], of flask_login, as a wrapper of a view over a state
    [S]; the view reads the ambient [current_user]. *)
Definition login_required {S A : Type} (f : option User -> S -> S * Response A)
  : option User -> S -> S * Response A :=
  fun cu s =>
    match cu with
    | None => (s, Unauthorized)
    | Some _ => f cu s
    end.

(** [role_required(role)] *)
Definition role_required {S A : Type} (required : string)
           (f : option User -> S -> S * Response A)
  : option User -> S -> S * Response A :=
  fun cu s =>
    match cu with
    | None => (s, Unauthorized)
    | Some u =>
        if negb (bool_decide (role u = required))
           && negb (bool_decide (role u = "admin"%string))
        then (s, RedirectIndex)
        else f cu s
    end.

(** *** [admin_users] *)

(** The posted form: [email] and [password] after [.strip()], and the
    [role] field when the form has one. *)
Record UserForm := mkUserForm {
  uf_email : string;
  uf_password : string;
  uf_role : option string
}.

Inductive UsersMethod :=
| UsersGET
| UsersPOST (form : UserForm).

Inductive UsersOutcome :=
| EmailPasswordRequired                    (* 'Email & password required' *)
| UserExists                               (* 'User exists' *)
| UsersPage (created : bool) (listing : list User).

(** [User.query.order_by(User.id.desc()).all()] *)
Definition id_desc (a b : User) : Prop := user_id b <= user_id a.

#[global] Instance id_desc_dec : RelDecision id_desc.
Proof. intros a b. unfold id_desc. apply Z_le_dec. Defined.

Definition users_listing (users : list User) : list User :=
  merge_sort id_desc users.

(** The body of [admin_users]. *)
Definition admin_users_view `{Bcrypt} (salt : string) (m : UsersMethod)
  : option User -> list User -> list User * Response UsersOutcome :=
  fun _ users =>
    match m with
    | UsersPOST form =>
        let role := default "staff"%string (uf_role form) in
        if bool_decide (uf_email form = ""%string)
           || bool_decide (uf_password form = ""%string)
        then (users, Served EmailPasswordRequired)
        else
          match List.find (fun u => bool_decide (email u = uf_email form)) users with
          | Some _ => (users, Served UserExists)
          | None =>
              let u := set_password salt
                         (mkUser (next_user_id users) (uf_email form) "" role)
                         (uf_password form) in
              let users' := users ++ [u] in
              (users', Served (UsersPage true (users_listing users')))
          end
    | UsersGET => (users, Served (UsersPage false (users_listing users)))
    end.

(** [admin_users], under [@login_required] and [@role_required('admin')]. *)
Definition admin_users `{Bcrypt} (salt : string) (m : UsersMethod)
  : option User -> list User -> list User * Response UsersOutcome :=
  login_required (role_required "admin" (admin_users_view salt m)).

(** *** [login] and [logout] *)

Inductive LoginMethod :=
| LoginGET
| LoginPOST (email password : string).

Inductive LoginOutcome :=
| LoggedIn                                 (* redirect to the dashboard *)
| InvalidCredentials                       (* 'Invalid credentials' *)
| LoginPage.

(** [login]: the session (the id of the logged-in user, if any) after the
    request, and the answer. *)
Definition login `{Bcrypt} (users : list User) (session : option Z) (m : LoginMethod)
  : option Z * LoginOutcome :=
  match m with
  | LoginPOST e password =>
      match List.find (fun u => bool_decide (email u = e)) users with
      | Some user =>
          if check_password user password
          then (Some (user_id user), LoggedIn)
          else (session, InvalidCredentials)
      | None => (session, InvalidCredentials)
      end
  | LoginGET => (session, LoginPage)
  end.

(** [logout] *)
Definition logout (session : option Z) : option Z := None.

(** ** The catalogue and the whole database *)

(** [class Property(db.Model)] *)
Record Property := mkProperty {
  property_id : Z;
  property_name : string
}.

(** [class Hotel(db.Model)]; [city] and [description] are nullable. *)
Record Hotel := mkHotel {
  hotel_id : Z;
  hotel_property_id : Z;
  hotel_name : string;
  hotel_city : option string;
  hotel_description : option string
}.

(** The [hotel_id] column of a room type row. The [RoomType] record holds
    the columns the booking engine reads; this foreign key, which only the
    dashboard query follows, is kept beside it under the id of the row.
    ([price], a float no function of [app.py] reads, is left out.) *)
Record RoomTypeHotel := mkRoomTypeHotel {
  rth_room_type_id : Z;
  rth_hotel_id : Z
}.

(** All the tables. *)
Record Database := mkDatabase {
  db_properties : list Property;
  db_hotels : list Hotel;
  db_room_type_hotel : list RoomTypeHotel;
  db_users : list User;
  db_store : Store
}.

(** The next integer primary key of a table, from the keys in use. *)
Definition next_key (keys : list Z) : Z := 1 + fold_left Z.max keys 0.

(** ** Seeding: [seed] of [seed.py], and the start-up block of [app.py] *)

Inductive SeedOutcome :=
| AlreadySeeded            (* 'Already seeded': a property exists *)
| Seeded                   (* all four commits went through *)
| SeedIntegrityError.      (* the last commit broke the unique e-mail constraint *)

(** [seed()]. The four [commit]s are separate transactions: when the last
    one fails on the unique constraint of [User.email], what the first three
    wrote stays. [seed.py] lets the exception out; the start-up block of
    [app.py], which runs the same statements when [Property.query.count()]
    is 0, catches and prints it. The database is left the same by both. *)
Definition seed `{Bcrypt} (salt : string) (db : Database) : Database * SeedOutcome :=
  if 0 <? Z.of_nat (length (db_properties db)) then (db, AlreadySeeded)
  else
    let p := mkProperty (next_key (map property_id (db_properties db)))
                        "Heritage Group of Hospitality" in
    let hid := next_key (map hotel_id (db_hotels db)) in
    let h1 := mkHotel hid (property_id p) "Kutch Heritage"
                      (Some "Bhuj"%string) (Some "A heritage stay in Kutch"%string) in
    let h2 := mkHotel (hid + 1) (property_id p) "Heritage Palace"
                      (Some "Bhuj"%string) (Some "Comfort and tradition"%string) in
    let rid := next_key (map rt_id (room_types (db_store db))) in
    let rt1 := mkRoomType rid "Deluxe Double" 2 5 in
    let rt2 := mkRoomType (rid + 1) "Family Suite" 4 2 in
    let rt3 := mkRoomType (rid + 2) "Standard Room" 2 10 in
    let links := [mkRoomTypeHotel rid (hotel_id h1);
                  mkRoomTypeHotel (rid + 1) (hotel_id h1);
                  mkRoomTypeHotel (rid + 2) (hotel_id h2)] in
    let store := mkStore (room_types (db_store db) ++ [rt1; rt2; rt3])
                         (reservations (db_store db)) in
    let catalogue users :=
      mkDatabase (db_properties db ++ [p]) (db_hotels db ++ [h1; h2])
                 (db_room_type_hotel db ++ links) users store in
    let admin := set_password salt
                   (mkUser (next_user_id (db_users db)) "admin@heritage.local" "" "admin")
                   "password123" in
    match List.find (fun u => bool_decide (email u = email admin)) (db_users db) with
    | Some _ => (catalogue (db_users db), SeedIntegrityError)
    | None => (catalogue (db_users db ++ [admin]), Seeded)
    end.

(** A database with no row in any table. *)
Definition empty_database : Database :=
  mkDatabase [] [] [] [] (mkStore [] []).

(** Every reservation belongs to a room type of the table. *)
Definition fk_valid (st : Store) : Prop :=
  forall r, In r (reservations st) ->
            exists rt, In rt (room_types st) /\ rt_id rt = room_type_id r.

(** ** The dashboard query of [admin_dashboard] *)

(** A date parameter of the query string: absent or empty, not parseable
    by [parse_date], or a date. *)
Inductive DateArg :=
| DateAbsent
| DateUnparseable
| DateGiven (d : Z).

(** The query parameters. An id is [None] when the parameter is absent or
    is not an integer ([request.args.get(.., type=int)]). *)
Record DashboardArgs := mkDashboardArgs {
  arg_property_id : option Z;
  arg_hotel_id : option Z;
  arg_room_type_id : option Z;
  arg_date_from : DateArg;
  arg_date_to : DateArg
}.

(** [if property_id:], on an optional integer. *)
Definition truthy (x : option Z) : bool :=
  match x with
  | Some n => negb (n =? 0)
  | None => false
  end.

(** [Reservation.query.join(RoomType).join(Hotel).join(Property)], for one
    reservation: the room type, hotel and property its foreign keys lead
    to, when all three exist (primary keys being unique, at most one row of
    the join per reservation). *)
Definition joined (db : Database) (r : Reservation)
  : option (RoomType * Hotel * Property) :=
  match RoomType_get (db_store db) (room_type_id r) with
  | None => None
  | Some rt =>
      match List.find (fun l => rth_room_type_id l =? rt_id rt) (db_room_type_hotel db) with
      | None => None
      | Some l =>
          match List.find (fun h => hotel_id h =? rth_hotel_id l) (db_hotels db) with
          | None => None
          | Some h =>
              match List.find (fun p => property_id p =? hotel_property_id h)
                              (db_properties db) with
              | None => None
              | Some p => Some (rt, h, p)
              end
          end
      end
  end.

(** The id filters of the query. *)
Definition id_filters (db : Database) (args : DashboardArgs) (r : Reservation) : bool :=
  match joined db r with
  | None => false
  | Some (rt, h, p) =>
      (if truthy (arg_property_id args)
       then bool_decide (Some (property_id p) = arg_property_id args) else true)
      && (if truthy (arg_hotel_id args)
          then bool_decide (Some (hotel_id h) = arg_hotel_id args) else true)
      && (if truthy (arg_room_type_id args)
          then bool_decide (Some (rt_id rt) = arg_room_type_id args) else true)
  end.

(** The rows the query of [admin_dashboard] selects, in table order (the
    [order_by(created_at.desc())] is not represented); [None] when a date
    parameter makes [parse_date] raise. *)
Definition dashboard_query (db : Database) (args : DashboardArgs)
  : option (list Reservation) :=
  let q := List.filter (id_filters db args) (reservations (db_store db)) in
  match arg_date_from args with
  | DateUnparseable => None
  | from =>
      let q := match from with
               | DateGiven df => List.filter (fun r => df <? check_out r) q
               | _ => q
               end in
      match arg_date_to args with
      | DateUnparseable => None
      | DateGiven dt => Some (List.filter (fun r => check_in r <? dt) q)
      | DateAbsent => Some q
      end
  end.

(** * Properties *)

(** ** Overlap and occupancy *)

Lemma overlaps_iff (r : Reservation) (s e : Z) :
  overlaps r s e = true <-> s < check_out r /\ check_in r < e.
Proof. unfold overlaps. lia. Qed.

(** Overlapping the one-day range [[d, d+1)] is covering [d]. *)
Lemma overlaps_day (r : Reservation) (d : Z) :
  overlaps r d (d + 1) = covers r d.
Proof.
  unfold overlaps, covers.
  destruct (check_out r <=? d) eqn:E1, (check_in r >=? d + 1) eqn:E2,
           (check_in r <=? d) eqn:E3, (d <? check_out r) eqn:E4;
    simpl; try reflexivity; lia.
Qed.

Lemma count_fold_shift (rs : list Reservation) (s e acc : Z) :
  fold_left (fun count r => if overlaps r s e then count + 1 else count) rs acc
  = acc + Z.of_nat (length (List.filter (fun r => overlaps r s e) rs)).
Proof.
  revert acc. induction rs as [|r rs IH]; intros acc; simpl.
  - lia.
  - rewrite IH. destruct (overlaps r s e); simpl; lia.
Qed.

Lemma count_overlapping_length (rs : list Reservation) (s e : Z) :
  count_overlapping rs s e
  = Z.of_nat (length (List.filter (fun r => overlaps r s e) rs)).
Proof. unfold count_overlapping. rewrite count_fold_shift. lia. Qed.

Lemma sum_overlapping_length (rs : list Reservation) (s e : Z) :
  sum_overlapping rs s e
  = Z.of_nat (length (List.filter (fun r => overlaps r s e) rs)).
Proof.
  unfold sum_overlapping.
  induction (List.filter (fun r => overlaps r s e) rs) as [|x l IH]; simpl.
  - reflexivity.
  - rewrite IH. lia.
Qed.

Lemma filter_overlaps_day (rs : list Reservation) (d : Z) :
  List.filter (fun r => overlaps r d (d + 1)) rs = List.filter (fun r => covers r d) rs.
Proof. apply filter_ext. intros r. apply overlaps_day. Qed.

(** The count taken by [is_available] on day [d] is the occupancy of [d]. *)
Lemma count_overlapping_occupancy (st : Store) (rt : RoomType) (d : Z) :
  count_overlapping (rt_reservations st rt) d (d + 1) = occupancy st rt d.
Proof.
  rewrite count_overlapping_length, filter_overlaps_day. reflexivity.
Qed.

Lemma sum_overlapping_occupancy (st : Store) (rt : RoomType) (d : Z) :
  sum_overlapping (rt_reservations st rt) d (d + 1) = occupancy st rt d.
Proof.
  rewrite sum_overlapping_length, filter_overlaps_day. reflexivity.
Qed.

Lemma occupancy_nonneg (st : Store) (rt : RoomType) (d : Z) : 0 <= occupancy st rt d.
Proof. unfold occupancy. lia. Qed.

(** ** The availability loop *)

(** What the loop returns from day [d] with exactly the fuel the remaining
    range needs: the earliest blocked day, or availability of the whole
    remainder. *)
Lemma is_available_loop_spec (rs : list Reservation) (qty : Z) (end_date : Z) :
  forall (fuel : nat) (d : Z),
    fuel = Z.to_nat (end_date - d) ->
    match is_available_loop rs qty fuel d end_date with
    | (false, Some b) =>
        d <= b < end_date /\ count_overlapping rs b (b + 1) >= qty /\
        (forall d', d <= d' < b -> count_overlapping rs d' (d' + 1) < qty)
    | (true, None) =>
        forall d', d <= d' < end_date -> count_overlapping rs d' (d' + 1) < qty
    | _ => False
    end.
Proof.
  induction fuel as [|fuel IH]; intros d Hfuel; simpl.
  - intros d' Hd'. lia.
  - destruct (d <? end_date) eqn:Hlt; [|lia].
    destruct (count_overlapping rs d (d + 1) >=? qty) eqn:Hge.
    + repeat split; intros; lia.
    + specialize (IH (d + 1) ltac:(lia)).
      destruct (is_available_loop rs qty fuel (d + 1) end_date) as [[|] [b|]];
        try exact IH.
      * intros d' Hd'. destruct (Z.eq_dec d' d) as [->|Hne]; [lia|].
        apply IH. lia.
      * destruct IH as (Hb & Hc & Hmin). repeat split; try lia.
        intros d' Hd'. destruct (Z.eq_dec d' d) as [->|Hne]; [lia|].
        apply Hmin. lia.
Qed.

Lemma is_available_spec (st : Store) (rt : RoomType) (s e : Z) :
  match is_available st rt s e with
  | (false, Some b) =>
      s <= b < e /\ occupancy st rt b >= quantity rt /\
      (forall d, s <= d < b -> occupancy st rt d < quantity rt)
  | (true, None) => forall d, s <= d < e -> occupancy st rt d < quantity rt
  | _ => False
  end.
Proof.
  unfold is_available.
  pose proof (is_available_loop_spec (rt_reservations st rt) (quantity rt) e
                (Z.to_nat (e - s)) s eq_refl) as H.
  destruct (is_available_loop _ _ _ s e) as [[|] [b|]]; try exact H.
  - intros d Hd. rewrite <- count_overlapping_occupancy. auto.
  - destruct H as (Hb & Hc & Hmin). rewrite <- count_overlapping_occupancy.
    repeat split; try lia.
    intros d Hd. rewrite <- count_overlapping_occupancy. auto.
Qed.

(** C2. For a range with [start < end], [is_available] scans the days of
    [[start, end)] in increasing order: it answers [(False, d)] exactly for the
    earliest day [d] of the range whose occupancy reaches the quantity of the
    room type, and [(True, None)] exactly when no day of the range does. *)
Theorem is_available_first_blocked (st : Store) (rt : RoomType) (s e : Z) :
  s < e ->
  (forall d,
      is_available st rt s e = (false, Some d) <->
      (s <= d < e /\ occupancy st rt d >= quantity rt /\
       forall d', s <= d' < d -> occupancy st rt d' < quantity rt)) /\
  (is_available st rt s e = (true, None) <->
   forall d, s <= d < e -> occupancy st rt d < quantity rt).
Proof.
  intros Hse. pose proof (is_available_spec st rt s e) as H.
  destruct (is_available st rt s e) as [[|] [b|]]; try contradiction.
  - split.
    + intros d. split; [discriminate|].
      intros (Hd & Hocc & _). specialize (H d Hd). lia.
    + split; auto.
  - destruct H as (Hb & Hocc & Hmin). split.
    + intros d. split.
      * intros [= <-]. auto.
      * intros (Hd & Hoccd & Hmind).
        destruct (Z.lt_trichotomy b d) as [Hlt | [-> | Hgt]]; [|reflexivity|].
        -- specialize (Hmind b ltac:(lia)). lia.
        -- specialize (Hmin d ltac:(lia)). lia.
    + split; [discriminate|]. intros Hall. specialize (Hall b Hb). lia.
Qed.

Lemma is_available_first_blocked_witness :
  let rt := mkRoomType 1 "Family Suite" 4 1 in
  let st := mkStore [rt] [mkReservation 1 1 "direct" None "a" "a@x" 12 14] in
  10 < 15 /\ is_available st rt 10 15 = (false, Some 12).
Proof.
  intros rt st. split; [lia|].
  apply (proj1 (is_available_first_blocked st rt 10 15 ltac:(lia)) 12).
  split; [lia|]. split; [vm_compute; discriminate|].
  intros d' Hd'.
  assert (d' = 10 \/ d' = 11) as [-> | ->] by lia; vm_compute; reflexivity.
Defined.

(** C3. [overlaps] has half-open interval semantics: a reservation overlaps
    the range [[start, end)] iff not ([check_out <= start] or
    [check_in >= end]). A reservation [[2024-01-10, 2024-01-12)] does not
    overlap [[2024-01-12, 2024-01-14)] (same-day turnover) and does overlap
    [[2024-01-11, 2024-01-13)]. *)
Theorem overlaps_half_open :
  (forall (r : Reservation) (s e : Z),
      overlaps r s e = true <-> ~ (check_out r <= s \/ check_in r >= e)) /\
  (forall id rt src ext name email,
      let r := mkReservation id rt src ext name email
                 (Date.ymd 2024 1 10) (Date.ymd 2024 1 12) in
      overlaps r (Date.ymd 2024 1 12) (Date.ymd 2024 1 14) = false /\
      overlaps r (Date.ymd 2024 1 11) (Date.ymd 2024 1 13) = true).
Proof.
  split.
  - intros r s e. rewrite overlaps_iff. lia.
  - intros. split; reflexivity.
Qed.

(** C10. On an empty or inverted range ([end <= start]) [is_available]
    answers [(True, None)] whatever the room type, its quantity and the
    reservations in the store; the range is turned down only by the
    validation [book_room] runs before the check. *)
Theorem is_available_empty_range (st : Store) (rt : RoomType) (s e : Z) :
  e <= s ->
  is_available st rt s e = (true, None) /\
  (forall id name email,
      RoomType_get st id = Some rt ->
      book_room st id (POST (mkBookingForm name email (Some s) (Some e)))
      = (st, CheckOutMustBeAfterCheckIn)).
Proof.
  intros Hes. split.
  - unfold is_available.
    replace (Z.to_nat (e - s)) with O by lia. reflexivity.
  - intros id name email Hget. unfold book_room. rewrite Hget. simpl.
    destruct (s >=? e) eqn:E; [reflexivity|lia].
Qed.

Lemma is_available_empty_range_witness :
  let rt := mkRoomType 1 "Family Suite" 4 0 in
  let st := mkStore [rt] [mkReservation 1 1 "direct" None "a" "a@x" 10 20;
                          mkReservation 2 1 "direct" None "b" "b@x" 10 20] in
  is_available st rt 15 12 = (true, None) /\
  book_room st 1 (POST (mkBookingForm "c" "c@x" (Some 15) (Some 12)))
  = (st, CheckOutMustBeAfterCheckIn).
Proof.
  intros rt st.
  pose proof (is_available_empty_range st rt 15 12 ltac:(lia)) as [H1 H2].
  split; [exact H1|]. apply H2. reflexivity.
Defined.

(** ** Lookups *)

Lemma RoomType_get_some (st : Store) (id : Z) (rt : RoomType) :
  RoomType_get st id = Some rt -> In rt (room_types st) /\ rt_id rt = id.
Proof.
  unfold RoomType_get. intros H. apply find_some in H. destruct H as [Hin Heq].
  split; [exact Hin|lia].
Qed.

Lemma pk_unique_inj (l : list RoomType) (a b : RoomType) :
  NoDup (map rt_id l) -> In a l -> In b l -> rt_id a = rt_id b -> a = b.
Proof.
  induction l as [|x l IH]; simpl; intros Hnd Ha Hb Heq; [contradiction|].
  inversion Hnd as [|? ? Hnotin Hnd']; subst.
  destruct Ha as [-> | Ha], Hb as [-> | Hb]; auto.
  - exfalso. apply Hnotin. rewrite Heq. apply list_elem_of_In, in_map. exact Hb.
  - exfalso. apply Hnotin. rewrite <- Heq. apply list_elem_of_In, in_map. exact Ha.
Qed.

(** ** Effect of a commit on occupancy *)

Lemma room_types_add_commit st rt src ext name email ci co :
  room_types (fst (add_commit st rt src ext name email ci co)) = room_types st.
Proof. reflexivity. Qed.

Lemma reservations_add_commit st rt src ext name email ci co :
  reservations (fst (add_commit st rt src ext name email ci co))
  = reservations st ++ [snd (add_commit st rt src ext name email ci co)].
Proof. reflexivity. Qed.

(** Adding a row raises the occupancy of day [d] of room type [rt'] by one
    when the row is on [rt'] and covers [d], and leaves it as it was
    otherwise. *)
Lemma occupancy_add_commit st rt src ext name email ci co (rt' : RoomType) (d : Z) :
  occupancy (fst (add_commit st rt src ext name email ci co)) rt' d
  = occupancy st rt' d
    + (if (rt =? rt_id rt') && ((ci <=? d) && (d <? co)) then 1 else 0).
Proof.
  unfold occupancy, covering, rt_reservations.
  rewrite reservations_add_commit. rewrite !List.filter_app, !List.length_app.
  simpl. unfold covers.
  destruct (rt =? rt_id rt'); simpl; [|lia].
  destruct ((ci <=? d) && (d <? co)); simpl; lia.
Qed.

(** A commit that follows a positive availability answer keeps the capacity
    invariant. *)
Lemma add_commit_invariant st (rt : RoomType) src ext name email ci co o :
  pk_unique st -> capacity_invariant st ->
  In rt (room_types st) ->
  is_available st rt ci co = (true, o) ->
  capacity_invariant (fst (add_commit st (rt_id rt) src ext name email ci co)).
Proof.
  intros Hpk Hinv Hin Hav rt' d Hin'.
  rewrite room_types_add_commit in Hin'.
  rewrite occupancy_add_commit.
  pose proof (Hinv rt' d Hin') as Hle.
  destruct (rt_id rt =? rt_id rt') eqn:Eid; simpl; [|lia].
  destruct ((ci <=? d) && (d <? co)) eqn:Ecov; [|lia].
  assert (rt = rt') as <- by (apply (pk_unique_inj (room_types st)); auto; lia).
  pose proof (is_available_spec st rt ci co) as Hspec. rewrite Hav in Hspec.
  destruct o; [contradiction|].
  specialize (Hspec d ltac:(lia)). lia.
Qed.

Lemma book_room_room_types st id m :
  room_types (fst (book_room st id m)) = room_types st.
Proof.
  unfold book_room.
  destruct (RoomType_get st id) as [rt|]; [|reflexivity].
  destruct m as [|form]; [reflexivity|].
  destruct (form_check_in form) as [ci|], (form_check_out form) as [co|];
    try reflexivity.
  destruct (ci >=? co); [reflexivity|].
  destruct (is_available st rt ci co) as [[|] o]; reflexivity.
Qed.

Lemma ota_webhook_room_types st body :
  room_types (fst (ota_webhook st body)) = room_types st.
Proof.
  unfold ota_webhook.
  destruct body as [data|]; [|reflexivity].
  destruct (find_existing st (ota data) (data_external_id data)); [reflexivity|].
  destruct (RoomType_get st (data_room_type_id data)) as [rt|]; [|reflexivity].
  destruct (data_check_in data) as [ci|], (data_check_out data) as [co|];
    try reflexivity.
  destruct (is_available st rt ci co) as [[|] o]; reflexivity.
Qed.

Lemma book_room_invariant st id m :
  pk_unique st -> capacity_invariant st -> capacity_invariant (fst (book_room st id m)).
Proof.
  intros Hpk Hinv. unfold book_room.
  destruct (RoomType_get st id) as [rt|] eqn:Hget; [|exact Hinv].
  apply RoomType_get_some in Hget. destruct Hget as [Hin _].
  destruct m as [|form]; [exact Hinv|].
  destruct (form_check_in form) as [ci|], (form_check_out form) as [co|];
    try exact Hinv.
  destruct (ci >=? co); [exact Hinv|].
  destruct (is_available st rt ci co) as [[|] o] eqn:Hav; [|exact Hinv].
  eapply add_commit_invariant; eauto.
Qed.

Lemma ota_webhook_invariant st body :
  pk_unique st -> capacity_invariant st -> capacity_invariant (fst (ota_webhook st body)).
Proof.
  intros Hpk Hinv. unfold ota_webhook.
  destruct body as [data|]; [|exact Hinv].
  destruct (find_existing st (ota data) (data_external_id data)); [exact Hinv|].
  destruct (RoomType_get st (data_room_type_id data)) as [rt|] eqn:Hget;
    [|exact Hinv].
  apply RoomType_get_some in Hget. destruct Hget as [Hin _].
  destruct (data_check_in data) as [ci|], (data_check_out data) as [co|];
    try exact Hinv.
  destruct (is_available st rt ci co) as [[|] o] eqn:Hav; [|exact Hinv].
  eapply add_commit_invariant; eauto.
Qed.

Lemma handle_room_types st req : room_types (handle st req) = room_types st.
Proof.
  destruct req; simpl; [apply book_room_room_types|apply ota_webhook_room_types].
Qed.

Lemma handle_invariant st req :
  pk_unique st -> capacity_invariant st ->
  pk_unique (handle st req) /\ capacity_invariant (handle st req).
Proof.
  intros Hpk Hinv. split.
  - unfold pk_unique. rewrite handle_room_types. exact Hpk.
  - destruct req; simpl; [apply book_room_invariant|apply ota_webhook_invariant];
      assumption.
Qed.

(** C1. Starting from a store in which the capacity invariant holds, after
    any sequence of booking and webhook requests served one after the other
    (the successful ones commit a row, the others leave the store as it
    was), no room type holds on any day more reservations covering that day
    than its quantity. *)
Theorem capacity_invariant_preserved (st : Store) (reqs : list Request) :
  pk_unique st -> capacity_invariant st ->
  forall rt d, In rt (room_types (serve st reqs)) ->
               occupancy (serve st reqs) rt d <= quantity rt.
Proof.
  revert st. induction reqs as [|req reqs IH]; intros st Hpk Hinv.
  - exact Hinv.
  - simpl. destruct (handle_invariant st req Hpk Hinv) as [Hpk' Hinv'].
    apply IH; assumption.
Qed.

Lemma capacity_invariant_preserved_witness :
  let rt := mkRoomType 1 "Family Suite" 4 1 in
  let st := mkStore [rt] [mkReservation 1 1 "direct" None "a" "a@x" 10 12] in
  let reqs :=
    [BookRoom 1 (POST (mkBookingForm "b" "b@x" (Some 11) (Some 13)));
     BookRoom 1 (POST (mkBookingForm "c" "c@x" (Some 12) (Some 14)));
     OtaWebhook (Some (mkWebhookData "booking.com" (Some "X1") 1 "d" "d@x"
                                     (Some 13) (Some 15)));
     OtaWebhook (Some (mkWebhookData "booking.com" (Some "X2") 1 "e" "e@x"
                                     (Some 14) (Some 16)))] in
  length (reservations (serve st reqs)) = 3%nat /\
  occupancy (serve st reqs) rt 12 <= quantity rt.
Proof.
  intros rt st reqs. split; [reflexivity|].
  apply (capacity_invariant_preserved st reqs).
  - unfold pk_unique. simpl. apply NoDup_singleton.
  - intros rt' d [<- | []].
    unfold occupancy, covering. simpl.
    destruct (covers _ d); simpl; lia.
  - simpl. left. reflexivity.
Defined.

(** ** Idempotent ingestion *)

Lemma find_none_filter_nil {A : Type} (f : A -> bool) (l : list A) :
  List.find f l = None -> List.filter f l = [].
Proof.
  induction l as [|x l IH]; simpl; [reflexivity|].
  destruct (f x); [discriminate|exact IH].
Qed.

Lemma find_app_none {A : Type} (f : A -> bool) (l : list A) (x : A) :
  List.find f l = None -> f x = true -> List.find f (l ++ [x]) = Some x.
Proof.
  induction l as [|y l IH]; simpl; intros Hnone Hx.
  - rewrite Hx. reflexivity.
  - destruct (f y); [discriminate|auto].
Qed.

Lemma has_key_refl (r : Reservation) : has_key (source r) (external_id r) r = true.
Proof.
  unfold has_key. rewrite !bool_decide_eq_true_2 by reflexivity. reflexivity.
Qed.

(** The first branch of [ota_webhook] after the field check: a row with the
    key of the request exists. *)
Lemma ota_webhook_existing st data existing :
  find_existing st (ota data) (data_external_id data) = Some existing ->
  ota_webhook st (Some data) = (st, Duplicate (res_id existing)).
Proof. intros H. unfold ota_webhook. rewrite H. reflexivity. Qed.

(** C4. When a row with the key [(source, external_id)] of the request
    exists, [ota_webhook] answers [duplicate] with the identifier of that
    row and leaves the store as it was, whatever the room type and the dates
    of the request. Hence, when no row has the key and the payload is
    accepted, a second delivery with the same key answers [duplicate] with
    the identifier the first one was accepted under, writes nothing, and
    exactly one row carries the key afterwards. *)
Theorem ota_webhook_idempotent (st : Store) (data : WebhookData) :
  (forall existing,
      find_existing st (ota data) (data_external_id data) = Some existing ->
      In existing (reservations st) /\
      source existing = ota data /\ external_id existing = data_external_id data /\
      ota_webhook st (Some data) = (st, Duplicate (res_id existing))) /\
  (forall rt ci co data',
      find_existing st (ota data) (data_external_id data) = None ->
      RoomType_get st (data_room_type_id data) = Some rt ->
      data_check_in data = Some ci -> data_check_out data = Some co ->
      is_available st rt ci co = (true, None) ->
      ota data' = ota data -> data_external_id data' = data_external_id data ->
      exists n st1,
        ota_webhook st (Some data) = (st1, Accepted n) /\
        ota_webhook st1 (Some data') = (st1, Duplicate n) /\
        length (rows_with_key st1 (ota data) (data_external_id data)) = 1%nat).
Proof.
  split.
  - intros existing Hfind. pose proof Hfind as Hf.
    unfold find_existing in Hf. apply find_some in Hf. destruct Hf as [Hin Hkey].
    unfold has_key in Hkey. apply andb_prop in Hkey. destruct Hkey as [Hs He].
    apply bool_decide_eq_true_1 in Hs. apply bool_decide_eq_true_1 in He.
    repeat split; auto. apply ota_webhook_existing. exact Hfind.
  - intros rt ci co data' Hnone Hget Hci Hco Hav Hota Hext.
    set (res := snd (add_commit st (rt_id rt) (ota data) (data_external_id data)
                                (data_guest_name data) (data_guest_email data) ci co)).
    exists (res_id res), (mkStore (room_types st) (reservations st ++ [res])).
    split; [|split].
    + unfold ota_webhook. rewrite Hnone, Hget, Hci, Hco, Hav. reflexivity.
    + apply ota_webhook_existing. rewrite Hota, Hext.
      unfold find_existing. cbn [reservations].
      apply find_app_none; [exact Hnone|]. apply (has_key_refl res).
    + unfold rows_with_key. cbn [reservations].
      rewrite List.filter_app.
      rewrite (find_none_filter_nil _ _ Hnone). simpl.
      change (has_key (ota data) (data_external_id data) res)
        with (has_key (source res) (external_id res) res).
      rewrite has_key_refl. reflexivity.
Qed.

Lemma ota_webhook_idempotent_witness :
  let rt := mkRoomType 1 "Family Suite" 4 2 in
  let st := mkStore [rt] [mkReservation 1 1 "direct" None "a" "a@x" 10 12] in
  let data := mkWebhookData "booking.com" (Some "X123") 1 "g" "g@x" (Some 10) (Some 12) in
  let retry := mkWebhookData "booking.com" (Some "X123") 7 "g" "g@x" None (Some 3) in
  exists n st1,
    ota_webhook st (Some data) = (st1, Accepted n) /\
    ota_webhook st1 (Some retry) = (st1, Duplicate n) /\
    length (rows_with_key st1 "booking.com" (Some "X123")) = 1%nat.
Proof.
  intros rt st data retry.
  apply (proj2 (ota_webhook_idempotent st data) rt 10 12 retry); reflexivity.
Defined.

(** ** Failed attempts *)

(** Every outcome of [book_room] other than a confirmation leaves the store
    as it was. *)
Lemma book_room_failure_unchanged st id m st' o :
  book_room st id m = (st', o) -> (forall ref, o <> Confirmed ref) -> st' = st.
Proof.
  unfold book_room. intros H Hfail.
  destruct (RoomType_get st id) as [rt|]; [|congruence].
  destruct m as [|form]; [congruence|].
  destruct (form_check_in form) as [ci|], (form_check_out form) as [co|];
    try congruence.
  destruct (ci >=? co); [congruence|].
  destruct (is_available st rt ci co) as [[|] b]; [|congruence].
  simpl in H. injection H as <- <-. exfalso. eapply Hfail. reflexivity.
Qed.

(** Every outcome of [ota_webhook] other than an acceptance leaves the store
    as it was. *)
Lemma ota_webhook_failure_unchanged st body st' o :
  ota_webhook st body = (st', o) -> (forall n, o <> Accepted n) -> st' = st.
Proof.
  unfold ota_webhook. intros H Hfail.
  destruct body as [data|]; [|congruence].
  destruct (find_existing st (ota data) (data_external_id data)); [congruence|].
  destruct (RoomType_get st (data_room_type_id data)) as [rt|]; [|congruence].
  destruct (data_check_in data) as [ci|], (data_check_out data) as [co|];
    try congruence.
  destruct (is_available st rt ci co) as [[|] b]; [|congruence].
  simpl in H. injection H as <- <-. exfalso. eapply Hfail. reflexivity.
Qed.

(** The day a conflict answer of [book_room] carries is the earliest day of
    the requested range on which the room type is full. *)
Lemma book_room_conflict_day st id form st' b :
  book_room st id (POST form) = (st', NotAvailable b) ->
  exists rt ci co d,
    RoomType_get st id = Some rt /\
    form_check_in form = Some ci /\ form_check_out form = Some co /\
    b = Some d /\ ci <= d < co /\ occupancy st rt d >= quantity rt /\
    (forall d', ci <= d' < d -> occupancy st rt d' < quantity rt).
Proof.
  unfold book_room. intros H.
  destruct (RoomType_get st id) as [rt|]; [|congruence].
  destruct (form_check_in form) as [ci|], (form_check_out form) as [co|];
    try congruence.
  destruct (ci >=? co); [congruence|].
  pose proof (is_available_spec st rt ci co) as Hspec.
  destruct (is_available st rt ci co) as [[|] [d|]]; try contradiction;
    simpl in H; try congruence.
  injection H as <- <-. exists rt, ci, co, d. tauto.
Qed.

(** The day a rejection of [ota_webhook] carries is the earliest day of the
    requested range on which the room type is full. *)
Lemma ota_webhook_conflict_day st data st' b :
  ota_webhook st (Some data) = (st', Rejected b) ->
  exists rt ci co d,
    RoomType_get st (data_room_type_id data) = Some rt /\
    data_check_in data = Some ci /\ data_check_out data = Some co /\
    b = Some d /\ ci <= d < co /\ occupancy st rt d >= quantity rt /\
    (forall d', ci <= d' < d -> occupancy st rt d' < quantity rt).
Proof.
  unfold ota_webhook. intros H.
  destruct (find_existing st (ota data) (data_external_id data)); [congruence|].
  destruct (RoomType_get st (data_room_type_id data)) as [rt|]; [|congruence].
  destruct (data_check_in data) as [ci|], (data_check_out data) as [co|];
    try congruence.
  pose proof (is_available_spec st rt ci co) as Hspec.
  destruct (is_available st rt ci co) as [[|] [d|]]; try contradiction;
    simpl in H; try congruence.
  injection H as <- <-. exists rt, ci, co, d. tauto.
Qed.

(** C5, at the input on which the two routes part. A webhook delivery whose
    check-out day is not after its check-in day is accepted and a row with
    that span is written, whereas [book_room] turns the same dates down and
    writes nothing. *)
Theorem ota_webhook_inverted_range_written :
  let rt := mkRoomType 1 "Family Suite" 4 2 in
  let st := mkStore [rt] [] in
  let ci := Date.ymd 2024 3 5 in
  let co := Date.ymd 2024 3 1 in
  ota_webhook st (Some (mkWebhookData "booking.com" (Some "X1") 1 "g" "g@x"
                                      (Some ci) (Some co)))
  = (mkStore [rt] [mkReservation 1 1 "booking.com" (Some "X1") "g" "g@x" ci co],
     Accepted 1) /\
  book_room st 1 (POST (mkBookingForm "g" "g@x" (Some ci) (Some co)))
  = (st, CheckOutMustBeAfterCheckIn).
Proof. split; reflexivity. Qed.

(** ** The reconciliation scan *)

(** The entry of a day after one reservation has been walked: the row is
    appended on the days of its span, the other days are untouched. *)
Lemma span_loop_lookup (r : Reservation) (d : Z) :
  forall (fuel : nat) (c : Z) (date_map : gmap Z (list Reservation)),
    fuel = Z.to_nat (check_out r - c) ->
    span_loop fuel c r date_map !! d
    = if (c <=? d) && (d <? check_out r)
      then Some (default [] (date_map !! d) ++ [r])
      else date_map !! d.
Proof.
  induction fuel as [|fuel IH]; intros c date_map Hfuel; simpl.
  - destruct ((c <=? d) && (d <? check_out r)) eqn:E; [lia|reflexivity].
  - destruct (c <? check_out r) eqn:Hlt; [|lia].
    rewrite IH by lia. unfold date_map_add.
    destruct (Z.eq_dec c d) as [->|Hne].
    + rewrite lookup_insert_eq.
      destruct ((d + 1 <=? d) && (d <? check_out r)) eqn:E1; [lia|].
      destruct ((d <=? d) && (d <? check_out r)) eqn:E2; [reflexivity|lia].
    + rewrite lookup_insert_ne by exact Hne.
      destruct ((c + 1 <=? d) && (d <? check_out r)) eqn:E1,
               ((c <=? d) && (d <? check_out r)) eqn:E2; try reflexivity; lia.
Qed.

Lemma add_span_lookup (date_map : gmap Z (list Reservation)) (r : Reservation) (d : Z) :
  add_span date_map r !! d
  = if covers r d then Some (default [] (date_map !! d) ++ [r]) else date_map !! d.
Proof. unfold add_span. rewrite span_loop_lookup by reflexivity. reflexivity. Qed.

(** A day is a key of the map exactly when a row covers it, and its entry
    is then the list of the rows covering it, in row order. *)
Lemma fold_add_span_lookup (rs pre : list Reservation)
      (date_map : gmap Z (list Reservation)) (d : Z) :
  date_map !! d = match List.filter (fun r => covers r d) pre with
                  | [] => None
                  | l => Some l
                  end ->
  fold_left add_span rs date_map !! d
  = match List.filter (fun r => covers r d) (pre ++ rs) with
    | [] => None
    | l => Some l
    end.
Proof.
  revert pre date_map. induction rs as [|r rs IH]; intros pre date_map Hdm; simpl.
  - rewrite app_nil_r. exact Hdm.
  - replace (pre ++ r :: rs) with ((pre ++ [r]) ++ rs)
      by (rewrite <- app_assoc; reflexivity).
    apply IH. rewrite add_span_lookup, Hdm, List.filter_app. simpl.
    destruct (covers r d).
    + destruct (List.filter (fun r0 => covers r0 d) pre) as [|x l]; reflexivity.
    + rewrite app_nil_r. reflexivity.
Qed.

Lemma build_date_map_lookup (rs : list Reservation) (d : Z) :
  build_date_map rs !! d
  = match List.filter (fun r => covers r d) rs with
    | [] => None
    | l => Some l
    end.
Proof.
  unfold build_date_map.
  apply (fold_add_span_lookup rs [] ∅ d). rewrite lookup_empty. reflexivity.
Qed.

Lemma entries_for_app rt d (l1 l2 : list Conflict) :
  entries_for rt d (l1 ++ l2) = entries_for rt d l1 ++ entries_for rt d l2.
Proof. apply List.filter_app. Qed.

(** The entries a room type contributes never name another room type. *)
Lemma entries_for_other rt rt' d (items : list (Z * list Reservation)) :
  rt_id rt' <> rt_id rt ->
  entries_for rt d (flat_map (conflict_of rt') items) = [].
Proof.
  intros Hne. induction items as [|[d' lst] items IH]; simpl; [reflexivity|].
  rewrite entries_for_app, IH, app_nil_r.
  destruct (Z.of_nat (length lst) >? quantity rt'); [|reflexivity].
  unfold entries_for. simpl.
  destruct (rt_id rt' =? rt_id rt) eqn:E; [lia|reflexivity].
Qed.

Lemma entries_for_absent rt d (items : list (Z * list Reservation)) :
  d ∉ items.*1 ->
  entries_for rt d (flat_map (conflict_of rt) items) = [].
Proof.
  induction items as [|[d' lst] items IH]; simpl; intros Hnotin; [reflexivity|].
  apply not_elem_of_cons in Hnotin. destruct Hnotin as [Hne Hnotin].
  rewrite entries_for_app, (IH Hnotin), app_nil_r.
  destruct (Z.of_nat (length lst) >? quantity rt); [|reflexivity].
  unfold entries_for. simpl.
  destruct (d' =? d) eqn:E; [lia|]. rewrite andb_false_r. reflexivity.
Qed.

Lemma entries_for_conflict_of rt d (lst : list Reservation) :
  entries_for rt d (conflict_of rt (d, lst)) = conflict_of rt (d, lst).
Proof.
  unfold conflict_of.
  destruct (Z.of_nat (length lst) >? quantity rt); [|reflexivity].
  unfold entries_for. simpl. rewrite !Z.eqb_refl. reflexivity.
Qed.

(** With distinct keys, the entries naming day [d] are those of the one item
    whose key is [d]. *)
Lemma entries_for_present rt d lst (items : list (Z * list Reservation)) :
  NoDup items.*1 -> (d, lst) ∈ items ->
  entries_for rt d (flat_map (conflict_of rt) items) = conflict_of rt (d, lst).
Proof.
  induction items as [|[d' lst'] items IH]; intros Hnd Hin.
  - apply elem_of_nil in Hin. contradiction.
  - rewrite fmap_cons in Hnd. apply NoDup_cons in Hnd. destruct Hnd as [Hnotin Hnd].
    cbn [flat_map]. rewrite entries_for_app.
    apply elem_of_cons in Hin. destruct Hin as [Heq | Hin].
    + injection Heq as <- <-.
      rewrite (entries_for_absent rt d items Hnotin), app_nil_r.
      apply entries_for_conflict_of.
    + rewrite (IH Hnd Hin).
      assert (d' <> d) as Hne.
      { intros ->. apply Hnotin. apply list_elem_of_fmap. exists (d, lst). auto. }
      replace (entries_for rt d (conflict_of rt (d', lst'))) with (@nil Conflict);
        [reflexivity|].
      unfold conflict_of.
      destruct (Z.of_nat (length lst') >? quantity rt); [|reflexivity].
      unfold entries_for. simpl.
      destruct (d' =? d) eqn:E; [lia|]. rewrite andb_false_r. reflexivity.
Qed.

Lemma entries_for_rt_conflicts rt d (date_map : gmap Z (list Reservation)) :
  entries_for rt d (rt_conflicts rt date_map)
  = match date_map !! d with
    | Some lst => conflict_of rt (d, lst)
    | None => []
    end.
Proof.
  unfold rt_conflicts. destruct (date_map !! d) as [lst|] eqn:Hd.
  - apply entries_for_present.
    + apply NoDup_fst_map_to_list.
    + apply elem_of_map_to_list. exact Hd.
  - apply entries_for_absent. intros Hin.
    apply list_elem_of_fmap in Hin. destruct Hin as [[d' lst] [Hfst Hin]].
    simpl in Hfst. subst d'. apply elem_of_map_to_list in Hin. congruence.
Qed.

(** The entries of the whole scan naming a room type of the table are those
    of its own pass. *)
Lemma entries_for_scan rt d (f : RoomType -> gmap Z (list Reservation))
      (rts : list RoomType) :
  NoDup (map rt_id rts) -> In rt rts ->
  entries_for rt d (flat_map (fun rt' => rt_conflicts rt' (f rt')) rts)
  = entries_for rt d (rt_conflicts rt (f rt)).
Proof.
  induction rts as [|x rts IH]; intros Hnd Hin; [contradiction|].
  cbn [map] in Hnd. apply NoDup_cons in Hnd. destruct Hnd as [Hnotin Hnd].
  cbn [flat_map]. rewrite entries_for_app.
  assert (forall l : list RoomType,
             (forall y, In y l -> rt_id y <> rt_id rt) ->
             entries_for rt d (flat_map (fun rt' => rt_conflicts rt' (f rt')) l) = [])
    as Hnone.
  { induction l as [|y l IHl]; intros Hall; [reflexivity|].
    cbn [flat_map]. rewrite entries_for_app.
    rewrite IHl by (intros z Hz; apply Hall; right; exact Hz).
    unfold rt_conflicts at 1. rewrite entries_for_other; [reflexivity|].
    apply Hall. left. reflexivity. }
  destruct Hin as [-> | Hin].
  - rewrite Hnone; [apply app_nil_r|].
    intros y Hy Heq. apply Hnotin. rewrite <- Heq.
    apply list_elem_of_In, in_map. exact Hy.
  - rewrite (IH Hnd Hin).
    unfold rt_conflicts at 1. rewrite entries_for_other; [reflexivity|].
    intros Heq. apply Hnotin. rewrite Heq.
    apply list_elem_of_In, in_map. exact Hin.
Qed.

(** The entries of [admin_reconcile] for a room type and a day, whatever the
    sign of the quantity. *)
Lemma admin_reconcile_entries (st : Store) (rt : RoomType) (d : Z) :
  pk_unique st -> In rt (room_types st) ->
  entries_for rt d (admin_reconcile st)
  = match covering st rt d with
    | [] => []
    | lst => if occupancy st rt d >? quantity rt
             then [mkConflict rt d (occupancy st rt d) lst]
             else []
    end.
Proof.
  intros Hpk Hin. unfold admin_reconcile.
  rewrite (entries_for_scan rt d (fun rt' => build_date_map (rt_reservations st rt')))
    by assumption.
  rewrite entries_for_rt_conflicts, build_date_map_lookup.
  unfold occupancy, covering.
  destruct (List.filter (fun r => covers r d) (rt_reservations st rt)); reflexivity.
Qed.

(** C7. For a room type of the table (quantity not negative) and a day:
    when the number of its reservations covering the day exceeds its
    quantity, [admin_reconcile] reports exactly one conflict for that room
    type and day, and the conflict lists all the reservations covering the
    day; when the count is at or under the quantity, or no reservation
    covers the day, it reports none. *)
Theorem admin_reconcile_conflicts (st : Store) (rt : RoomType) (d : Z) :
  pk_unique st -> In rt (room_types st) -> 0 <= quantity rt ->
  (occupancy st rt d > quantity rt ->
   entries_for rt d (admin_reconcile st)
   = [mkConflict rt d (occupancy st rt d) (covering st rt d)]) /\
  (occupancy st rt d <= quantity rt -> entries_for rt d (admin_reconcile st) = []) /\
  (covering st rt d = [] -> entries_for rt d (admin_reconcile st) = []).
Proof.
  intros Hpk Hin Hq. rewrite (admin_reconcile_entries st rt d Hpk Hin).
  unfold occupancy.
  destruct (covering st rt d) as [|r l] eqn:Hcov.
  - repeat split; auto. simpl. lia.
  - repeat split.
    + intros Hgt. destruct (_ >? _) eqn:E; [reflexivity|lia].
    + intros Hle. destruct (_ >? _) eqn:E; [lia|reflexivity].
    + discriminate.
Qed.

Lemma admin_reconcile_conflicts_witness :
  let rt := mkRoomType 1 "Family Suite" 4 2 in
  let r1 := mkReservation 1 1 "direct" None "a" "a@x"
              (Date.ymd 2024 2 28) (Date.ymd 2024 3 2) in
  let r2 := mkReservation 2 1 "booking.com" (Some "X1") "b" "b@x"
              (Date.ymd 2024 3 1) (Date.ymd 2024 3 3) in
  let r3 := mkReservation 3 1 "direct" None "c" "c@x"
              (Date.ymd 2024 2 29) (Date.ymd 2024 3 2) in
  let st := mkStore [rt; mkRoomType 2 "Deluxe Double" 2 5] [r1; r2; r3] in
  entries_for rt (Date.ymd 2024 3 1) (admin_reconcile st)
  = [mkConflict rt (Date.ymd 2024 3 1) 3 [r1; r2; r3]].
Proof.
  intros rt r1 r2 r3 st.
  assert (pk_unique st) as Hpk.
  { unfold pk_unique. simpl. apply NoDup_cons. split.
    - intros H. apply list_elem_of_singleton in H. discriminate.
    - apply NoDup_singleton. }
  assert (In rt (room_types st)) as Hin by (left; reflexivity).
  assert (0 <= quantity rt) as Hq by (simpl; lia).
  apply (proj1 (admin_reconcile_conflicts st rt (Date.ymd 2024 3 1) Hpk Hin Hq)).
  vm_compute. reflexivity.
Defined.

(** ** The availability feeds *)

Lemma markers_app (l1 l2 : list CalendarEvent) :
  markers (l1 ++ l2) = markers l1 ++ markers l2.
Proof. apply flat_map_app. Qed.

Lemma ota_push_availability_feed st today name id rt :
  RoomType_get st id = Some rt ->
  ota_push_availability st today name id = Some (availability_feed st rt today).
Proof.
  intros Hget. unfold ota_push_availability, availability_feed. rewrite Hget.
  f_equal. apply map_ext. intros i. simpl.
  rewrite sum_overlapping_occupancy. reflexivity.
Qed.

Lemma api_calendar_events_markers st today id rt :
  RoomType_get st id = Some rt ->
  exists events,
    api_calendar_events st today id = Some events /\
    markers events = availability_feed st rt today.
Proof.
  intros Hget. unfold api_calendar_events. rewrite Hget.
  eexists. split; [reflexivity|].
  rewrite markers_app. unfold availability_feed.
  change (map ?f range30) with ([] ++ map f range30) at 2.
  f_equal.
  - generalize (rt_reservations st rt) at 1. intros rs.
    induction rs as [|r rs IH]; simpl; [reflexivity|exact IH].
  - generalize range30. intros l.
    induction l as [|i l IH]; simpl; [reflexivity|].
    rewrite sum_overlapping_occupancy, IH. reflexivity.
Qed.

(** C8. For a room type found in the store, both 30-day feeds
    ([ota_push_availability] and the availability markers of
    [api_calendar_events]) report, for each day [today + i], [0 <= i < 30],
    in order, [max(0, quantity - occupancy)]; every reported count is
    non-negative, and it is the quantity on every day when the room type has
    no reservation (its quantity not being negative). *)
Theorem calendar_available_count (st : Store) (today : Z) (name : string)
        (id : Z) (rt : RoomType) :
  RoomType_get st id = Some rt ->
  ota_push_availability st today name id = Some (availability_feed st rt today) /\
  (exists events,
      api_calendar_events st today id = Some events /\
      markers events = availability_feed st rt today) /\
  map snap_date (availability_feed st rt today) = map (fun i => today + i) range30 /\
  (forall e, In e (availability_feed st rt today) -> 0 <= snap_available e) /\
  (rt_reservations st rt = [] -> 0 <= quantity rt ->
   availability_feed st rt today
   = map (fun i => mkSnapshotEntry (today + i) (quantity rt)) range30).
Proof.
  intros Hget. split; [|split; [|split; [|split]]].
  - apply ota_push_availability_feed. exact Hget.
  - apply api_calendar_events_markers. exact Hget.
  - unfold availability_feed. rewrite map_map. reflexivity.
  - intros e He. unfold availability_feed in He. apply in_map_iff in He.
    destruct He as [i [<- _]]. simpl. lia.
  - intros Hnil Hq. unfold availability_feed. apply map_ext. intros i.
    unfold occupancy, covering. rewrite Hnil. simpl. f_equal. lia.
Qed.

Lemma calendar_available_count_witness :
  let rt := mkRoomType 1 "Deluxe Double" 2 5 in
  let st := mkStore [rt] [] in
  let today := Date.ymd 2024 3 1 in
  ota_push_availability st today "booking.com" 1
  = Some (map (fun i => mkSnapshotEntry (today + i) 5) range30) /\
  length (map (fun i => mkSnapshotEntry (today + i) 5) range30) = 30%nat.
Proof.
  intros rt st today.
  destruct (calendar_available_count st today "booking.com" 1 rt eq_refl)
    as (Hfeed & _ & _ & _ & Hempty).
  split; [|reflexivity].
  rewrite Hfeed. rewrite Hempty by (reflexivity || (simpl; lia)). reflexivity.
Defined.

(** ** A third booking on a full range *)

Lemma filter_length_le {A : Type} (f g : A -> bool) (l : list A) :
  (forall x, f x = true -> g x = true) ->
  (length (List.filter f l) <= length (List.filter g l))%nat.
Proof.
  intros Himp. induction l as [|x l IH]; simpl; [lia|].
  destruct (f x) eqn:Ef.
  - rewrite (Himp x Ef). simpl. lia.
  - destruct (g x); simpl; lia.
Qed.

(** Every row booked for [[s, e)] covers each day of [[s, e)]. *)
Lemma span_count_le_occupancy st rt s e d :
  s <= d < e -> Z.of_nat (span_count st rt s e) <= occupancy st rt d.
Proof.
  intros Hd. unfold span_count, occupancy, covering.
  apply inj_le. apply filter_length_le.
  intros r Hr. unfold covers. lia.
Qed.

(** C9, as amended. A room type of quantity 2 holds two bookings for the
    same range [[s, e)]. A third booking for a range [[s3, e3)] overlapping
    it is turned down and the store is left as it was; the day reported lies
    between [s3] and [max s3 s]. It is the first day of the requested range
    when that day is inside [[s, e)]; when the requested range starts before
    [s] and the days before [s] are not full, it is [s]. *)
Theorem third_booking_blocked_day (st : Store) (rt : RoomType) (id : Z)
        (s e s3 e3 : Z) (name email : string) :
  RoomType_get st id = Some rt -> quantity rt = 2 ->
  s < e -> (2 <= span_count st rt s e)%nat ->
  s3 < e3 -> s3 < e -> s < e3 ->
  exists d,
    book_room st id (POST (mkBookingForm name email (Some s3) (Some e3)))
    = (st, NotAvailable (Some d)) /\
    s3 <= d <= Z.max s3 s /\
    (s <= s3 -> d = s3) /\
    ((forall d', s3 <= d' < s -> occupancy st rt d' < 2) -> d = Z.max s3 s).
Proof.
  intros Hget Hq Hse Hcount H3 Hov1 Hov2.
  assert (occupancy st rt (Z.max s3 s) >= quantity rt) as Hfull.
  { pose proof (span_count_le_occupancy st rt s e (Z.max s3 s) ltac:(lia)). lia. }
  unfold book_room. rewrite Hget. simpl.
  destruct (s3 >=? e3) eqn:E; [lia|].
  pose proof (is_available_spec st rt s3 e3) as Hspec.
  destruct (is_available st rt s3 e3) as [[|] [d|]]; try contradiction.
  - specialize (Hspec (Z.max s3 s) ltac:(lia)). lia.
  - destruct Hspec as (Hd & Hocc & Hmin). exists d.
    assert (d <= Z.max s3 s) as Hle.
    { destruct (Z_le_gt_dec d (Z.max s3 s)) as [|Hgt]; [assumption|].
      specialize (Hmin (Z.max s3 s) ltac:(lia)). lia. }
    split; [reflexivity|]. split; [lia|]. split; [lia|].
    intros Hfree.
    destruct (Z_lt_ge_dec d (Z.max s3 s)) as [Hlt|]; [|lia].
    specialize (Hfree d ltac:(lia)). lia.
Qed.

Lemma third_booking_blocked_day_witness :
  let rt := mkRoomType 1 "Family Suite" 4 2 in
  let st := mkStore [rt] [mkReservation 1 1 "direct" None "a" "a@x" 10 13;
                          mkReservation 2 1 "direct" None "b" "b@x" 10 13] in
  exists d,
    book_room st 1 (POST (mkBookingForm "c" "c@x" (Some 11) (Some 15)))
    = (st, NotAvailable (Some d)) /\
    11 <= d <= Z.max 11 10 /\
    (10 <= 11 -> d = 11) /\
    ((forall d', 11 <= d' < 10 -> occupancy st rt d' < 2) -> d = Z.max 11 10).
Proof.
  intros rt st.
  apply (third_booking_blocked_day st rt 1 10 13 11 15 "c" "c@x");
    first [reflexivity | lia | (vm_compute; lia)].
Defined.

(** C9, as stated, fails: with two bookings for [[10, 12)] on a room type of
    quantity 2, a third booking for the overlapping range [[9, 11)] is
    turned down on day 10, not on day 9, the first day of its range. *)
Lemma third_booking_first_day_counterexample :
  ~ (forall (st : Store) (rt : RoomType) (id s e s3 e3 : Z) (name email : string),
        RoomType_get st id = Some rt -> quantity rt = 2 ->
        s < e -> (2 <= span_count st rt s e)%nat ->
        s3 < e3 -> s3 < e -> s < e3 ->
        book_room st id (POST (mkBookingForm name email (Some s3) (Some e3)))
        = (st, NotAvailable (Some s3))).
Proof.
  intros H.
  specialize (H (mkStore [mkRoomType 1 "Family Suite" 4 2]
                         [mkReservation 1 1 "direct" None "a" "a@x" 10 12;
                          mkReservation 2 1 "direct" None "b" "b@x" 10 12])
                (mkRoomType 1 "Family Suite" 4 2) 1 10 12 9 11 "c" "c@x"
                eq_refl eq_refl ltac:(lia) ltac:(vm_compute; lia)
                ltac:(lia) ltac:(lia) ltac:(lia)).
  vm_compute in H. discriminate H.
Qed.

(** * Further properties of the engine *)

(** ** Overlap *)

(** X1. [overlaps] and sharing a day. For a reservation of at least one night
    and a non-empty range, [overlaps] holds exactly when some day of the
    range is covered by the reservation. *)
Theorem overlaps_common_day (r : Reservation) (s e : Z) :
  check_in r < check_out r -> s < e ->
  (overlaps r s e = true <-> exists d, covers r d = true /\ s <= d < e).
Proof.
  intros Hr Hse. rewrite overlaps_iff. unfold covers. split.
  - intros [H1 H2]. exists (Z.max (check_in r) s). lia.
  - intros [d [Hc Hd]]. lia.
Qed.

Lemma overlaps_common_day_witness :
  let r := mkReservation 1 1 "direct" None "a" "a@x" 10 12 in
  (overlaps r 11 13 = true <-> exists d, covers r d = true /\ 11 <= d < 13) /\
  (overlaps r 12 14 = true <-> exists d, covers r d = true /\ 12 <= d < 14).
Proof.
  intros r. split.
  - apply (overlaps_common_day r 11 13); simpl; lia.
  - apply (overlaps_common_day r 12 14); simpl; lia.
Defined.

(** X2. Overlap of two reservations does not depend on which one is asked. *)
Theorem overlaps_symmetric (r1 r2 : Reservation) :
  overlaps r1 (check_in r2) (check_out r2) = overlaps r2 (check_in r1) (check_out r1).
Proof.
  apply eq_true_iff_eq. rewrite !overlaps_iff. lia.
Qed.

(** ** The availability check on sub-ranges *)

Lemma is_available_true_iff st rt s e :
  is_available st rt s e = (true, None) <->
  forall d, s <= d < e -> occupancy st rt d < quantity rt.
Proof.
  pose proof (is_available_spec st rt s e) as H.
  destruct (is_available st rt s e) as [[|] [b|]]; try contradiction.
  - split; auto.
  - destruct H as (Hb & Hocc & _). split; [discriminate|].
    intros Hall. specialize (Hall b Hb). lia.
Qed.

Lemma is_available_false_iff st rt s e d :
  is_available st rt s e = (false, Some d) <->
  s <= d < e /\ occupancy st rt d >= quantity rt /\
  forall d', s <= d' < d -> occupancy st rt d' < quantity rt.
Proof.
  pose proof (is_available_spec st rt s e) as H.
  destruct (is_available st rt s e) as [[|] [b|]]; try contradiction.
  - split; [discriminate|]. intros (Hd & Hocc & _). specialize (H d Hd). lia.
  - destruct H as (Hb & Hocc & Hmin). split.
    + intros [= <-]. auto.
    + intros (Hd & Hoccd & Hmind).
      destruct (Z.lt_trichotomy b d) as [Hlt | [-> | Hgt]]; [|reflexivity|].
      * specialize (Hmind b ltac:(lia)). lia.
      * specialize (Hmin d ltac:(lia)). lia.
Qed.

(** The only answers of [is_available] are [(True, None)] and [(False, d)]. *)
Lemma is_available_shape st rt s e :
  is_available st rt s e = (true, None) \/
  exists d, is_available st rt s e = (false, Some d).
Proof.
  pose proof (is_available_spec st rt s e) as H.
  destruct (is_available st rt s e) as [[|] [b|]]; try contradiction; eauto.
Qed.

(** X3. A range is available exactly when its two halves are, wherever it is
    cut. *)
Theorem is_available_split (st : Store) (rt : RoomType) (s m e : Z) :
  s <= m <= e ->
  (is_available st rt s e = (true, None) <->
   is_available st rt s m = (true, None) /\ is_available st rt m e = (true, None)).
Proof.
  intros Hm. rewrite !is_available_true_iff. split.
  - intros H. split; intros d Hd; apply H; lia.
  - intros [H1 H2] d Hd. destruct (Z_lt_ge_dec d m); [apply H1|apply H2]; lia.
Qed.

Lemma is_available_split_witness :
  let rt := mkRoomType 1 "Family Suite" 4 1 in
  let st := mkStore [rt] [mkReservation 1 1 "direct" None "a" "a@x" 10 12] in
  is_available st rt 12 20 = (true, None) <->
  is_available st rt 12 15 = (true, None) /\ is_available st rt 15 20 = (true, None).
Proof.
  intros rt st. apply (is_available_split st rt 12 15 20). lia.
Defined.

(** X4. When a range is blocked on day [d], the days of the range before [d]
    are available and [d] itself is not. *)
Theorem is_available_blocked_prefix (st : Store) (rt : RoomType) (s e d : Z) :
  is_available st rt s e = (false, Some d) ->
  s <= d < e /\
  is_available st rt s d = (true, None) /\
  is_available st rt d (d + 1) = (false, Some d).
Proof.
  intros H. apply is_available_false_iff in H. destruct H as (Hd & Hocc & Hmin).
  split; [exact Hd|]. split.
  - apply is_available_true_iff. exact Hmin.
  - apply is_available_false_iff. repeat split; try lia.
Qed.

Lemma is_available_blocked_prefix_witness :
  let rt := mkRoomType 1 "Family Suite" 4 1 in
  let st := mkStore [rt] [mkReservation 1 1 "direct" None "a" "a@x" 12 14] in
  10 <= 12 < 15 /\
  is_available st rt 10 12 = (true, None) /\
  is_available st rt 12 13 = (false, Some 12).
Proof.
  intros rt st. apply (is_available_blocked_prefix st rt 10 15 12). reflexivity.
Defined.

(** X5. A room type whose quantity is zero or negative is blocked on the first
    day of every non-empty range, and [book_room] never confirms a booking
    on it. *)
Theorem no_units_never_bookable (st : Store) (rt : RoomType) (id : Z)
        (name email : string) (s e : Z) :
  quantity rt <= 0 -> s < e ->
  is_available st rt s e = (false, Some s) /\
  (RoomType_get st id = Some rt ->
   book_room st id (POST (mkBookingForm name email (Some s) (Some e)))
   = (st, NotAvailable (Some s))).
Proof.
  intros Hq Hse.
  assert (is_available st rt s e = (false, Some s)) as Hav.
  { apply is_available_false_iff. pose proof (occupancy_nonneg st rt s).
    repeat split; try lia. }
  split; [exact Hav|].
  intros Hget. unfold book_room. rewrite Hget. simpl.
  destruct (s >=? e) eqn:E; [lia|]. rewrite Hav. reflexivity.
Qed.

Lemma no_units_never_bookable_witness :
  let rt := mkRoomType 1 "Closed wing" 2 0 in
  let st := mkStore [rt] [] in
  is_available st rt 10 12 = (false, Some 10) /\
  book_room st 1 (POST (mkBookingForm "a" "a@x" (Some 10) (Some 12)))
  = (st, NotAvailable (Some 10)).
Proof.
  intros rt st.
  destruct (no_units_never_bookable st rt 1 "a" "a@x" 10 12) as [H1 H2];
    [simpl; lia | lia |].
  split; [exact H1 | apply H2; reflexivity].
Defined.

(** ** What a request writes *)



(** A request either leaves the store as it was or commits one row after a
    positive availability answer: a direct row with check-in before
    check-out, or a channel row whose key no row carried. *)
Lemma handle_cases (st : Store) (req : Request) :
  handle st req = st \/
  exists rt src ext name email ci co,
    handle st req = fst (add_commit st (rt_id rt) src ext name email ci co) /\
    In rt (room_types st) /\
    is_available st rt ci co = (true, None) /\
    match req with
    | BookRoom _ _ => src = "direct"%string /\ ext = None /\ ci < co
    | OtaWebhook _ => find_existing st src ext = None
    end.
Proof.
  destruct req as [id m | body]; simpl.
  - unfold book_room.
    destruct (RoomType_get st id) as [rt|] eqn:Hget; [|left; reflexivity].
    apply RoomType_get_some in Hget. destruct Hget as [Hin _].
    destruct m as [|form]; [left; reflexivity|].
    destruct (form_check_in form) as [ci|], (form_check_out form) as [co|];
      try (left; reflexivity).
    destruct (ci >=? co) eqn:E; [left; reflexivity|].
    destruct (is_available_shape st rt ci co) as [Hav | [d Hav]]; rewrite Hav;
      [|left; reflexivity].
    right. exists rt, "direct"%string, None, (form_name form), (form_email form), ci, co.
    repeat split; auto. lia.
  - unfold ota_webhook.
    destruct body as [data|]; [|left; reflexivity].
    destruct (find_existing st (ota data) (data_external_id data)) eqn:Hnone;
      [left; reflexivity|].
    destruct (RoomType_get st (data_room_type_id data)) as [rt|] eqn:Hget;
      [|left; reflexivity].
    apply RoomType_get_some in Hget. destruct Hget as [Hin _].
    destruct (data_check_in data) as [ci|], (data_check_out data) as [co|];
      try (left; reflexivity).
    destruct (is_available_shape st rt ci co) as [Hav | [d Hav]]; rewrite Hav;
      [|left; reflexivity].
    right. exists rt, (ota data), (data_external_id data),
             (data_guest_name data), (data_guest_email data), ci, co.
    repeat split; auto.
Qed.

(** A property of stores kept by every request is kept by every sequence of
    requests. *)
Lemma serve_keeps (P : Store -> Prop) :
  (forall st req, P st -> P (handle st req)) ->
  forall reqs st, P st -> P (serve st reqs).
Proof.
  intros Hstep. induction reqs as [|req reqs IH]; intros st HP; simpl; auto.
Qed.

(** X8. Serving requests is append-only: the room types are untouched, the rows
    present before are still there, unchanged and in the same places, and at
    most one row is added per request. *)
Theorem serve_append_only (st : Store) (reqs : list Request) :
  room_types (serve st reqs) = room_types st /\
  exists added,
    reservations (serve st reqs) = reservations st ++ added /\
    (length added <= length reqs)%nat.
Proof.
  revert st. induction reqs as [|req reqs IH]; intros st; simpl.
  - split; [reflexivity|]. exists []. rewrite app_nil_r. split; [reflexivity|simpl; lia].
  - destruct (IH (handle st req)) as [Hrt [added [Hres Hlen]]].
    rewrite Hrt, Hres, handle_room_types. split; [reflexivity|].
    destruct (handle_cases st req) as [-> | (rt & src & ext & nm & em & ci & co & -> & _)].
    + exists added. split; [reflexivity|lia].
    + rewrite reservations_add_commit, <- app_assoc.
      eexists. split; [reflexivity|]. simpl. lia.
Qed.

(** ** Identifiers *)

Lemma fold_max_bounds (l : list Z) (a : Z) :
  a <= fold_left Z.max l a /\ forall x, In x l -> x <= fold_left Z.max l a.
Proof.
  revert a. induction l as [|y l IH]; intros a; simpl.
  - split; [lia|]. intros x [].
  - destruct (IH (Z.max a y)) as [H1 H2]. split; [lia|].
    intros x [-> | Hx]; [lia|auto].
Qed.

(** The identifier given to a new row is positive and larger than every
    identifier in the table. *)
Lemma next_id_fresh (rs : list Reservation) :
  0 < next_id rs /\ forall r, In r rs -> res_id r < next_id rs.
Proof.
  unfold next_id. destruct (fold_max_bounds (map res_id rs) 0) as [H1 H2].
  split; [lia|]. intros r Hr. specialize (H2 (res_id r) (in_map res_id rs r Hr)). lia.
Qed.

Lemma handle_res_pk_unique st req : res_pk_unique st -> res_pk_unique (handle st req).
Proof.
  intros Hpk.
  destruct (handle_cases st req) as [-> | (rt & src & ext & nm & em & ci & co & -> & _)];
    [exact Hpk|].
  unfold res_pk_unique. rewrite reservations_add_commit, map_app.
  apply NoDup_app. split; [exact Hpk|]. split.
  - intros x Hx Hx'. simpl in Hx'. apply list_elem_of_singleton in Hx'. subst x.
    apply list_elem_of_In, in_map_iff in Hx. destruct Hx as [r [Heq Hr]].
    apply (next_id_fresh (reservations st)) in Hr. lia.
  - simpl. apply NoDup_singleton.
Qed.

(** X9. Reservation identifiers stay distinct: if no two rows share an
    identifier, none do after any sequence of requests. *)
Theorem serve_res_pk_unique (st : Store) (reqs : list Request) :
  res_pk_unique st -> res_pk_unique (serve st reqs).
Proof. apply (serve_keeps res_pk_unique). apply handle_res_pk_unique. Qed.

Lemma serve_res_pk_unique_witness :
  let rt := mkRoomType 1 "Family Suite" 4 2 in
  let st := mkStore [rt] [mkReservation 7 1 "direct" None "a" "a@x" 10 12;
                          mkReservation 3 1 "direct" None "b" "b@x" 20 22] in
  let reqs :=
    [BookRoom 1 (POST (mkBookingForm "c" "c@x" (Some 11) (Some 13)));
     OtaWebhook (Some (mkWebhookData "booking.com" (Some "X1") 1 "d" "d@x"
                                     (Some 30) (Some 32)))] in
  map res_id (reservations (serve st reqs)) = [7; 3; 8; 9] /\
  res_pk_unique (serve st reqs).
Proof.
  intros rt st reqs. split; [reflexivity|].
  apply (serve_res_pk_unique st reqs).
  unfold res_pk_unique. simpl. apply NoDup_cons. split.
  - intros H. apply list_elem_of_singleton in H. discriminate.
  - apply NoDup_singleton.
Defined.

(** ** Idempotency keys *)

Lemma rows_with_key_add_commit st rt src ext name email ci co src' ext' :
  rows_with_key (fst (add_commit st rt src ext name email ci co)) src' ext'
  = rows_with_key st src' ext'
    ++ (if bool_decide (src = src') && bool_decide (ext = ext')
        then [snd (add_commit st rt src ext name email ci co)] else []).
Proof.
  unfold rows_with_key. rewrite reservations_add_commit, List.filter_app.
  reflexivity.
Qed.

Lemma handle_keys_unique st req : keys_unique st -> keys_unique (handle st req).
Proof.
  intros Hk.
  destruct (handle_cases st req)
    as [-> | (rt & src & ext & nm & em & ci & co & -> & _ & _ & Hreq)]; [exact Hk|].
  intros src' ext'. rewrite rows_with_key_add_commit, List.length_app.
  specialize (Hk src' ext').
  destruct (bool_decide (src = src')) eqn:Es; simpl; [|lia].
  destruct (bool_decide (ext = Some ext')) eqn:Ee; simpl; [|lia].
  apply bool_decide_eq_true_1 in Es. apply bool_decide_eq_true_1 in Ee. subst.
  destruct req as [id m | body].
  - destruct Hreq as (_ & Hnone & _). discriminate.
  - unfold rows_with_key. unfold find_existing in Hreq.
    rewrite (find_none_filter_nil _ _ Hreq). simpl. lia.
Qed.

(** X10. Idempotency keys stay unique: if no key with a non-null external id is
    carried by two rows, none is after any sequence of requests. *)
Theorem serve_keys_unique (st : Store) (reqs : list Request) :
  keys_unique st -> keys_unique (serve st reqs).
Proof. apply (serve_keeps keys_unique). apply handle_keys_unique. Qed.

Lemma serve_keys_unique_witness :
  let rt := mkRoomType 1 "Family Suite" 4 5 in
  let st := mkStore [rt] [] in
  let delivery := mkWebhookData "booking.com" (Some "X1") 1 "d" "d@x"
                                (Some 30) (Some 32) in
  let reqs := [OtaWebhook (Some delivery); OtaWebhook (Some delivery);
               BookRoom 1 (POST (mkBookingForm "c" "c@x" (Some 30) (Some 32)));
               OtaWebhook (Some delivery)] in
  length (reservations (serve st reqs)) = 2%nat /\
  keys_unique (serve st reqs).
Proof.
  intros rt st delivery reqs. split; [reflexivity|].
  apply (serve_keys_unique st reqs).
  intros src ext. simpl. lia.
Defined.

Lemma find_app_some {A : Type} (f : A -> bool) (l l' : list A) (x : A) :
  List.find f l = Some x -> List.find f (l ++ l') = Some x.
Proof.
  induction l as [|y l IH]; simpl; [discriminate|].
  destruct (f y); auto.
Qed.

Lemma handle_find_existing st req src ext r :
  find_existing st src ext = Some r -> find_existing (handle st req) src ext = Some r.
Proof.
  intros Hfind.
  destruct (handle_cases st req)
    as [-> | (rt & src' & ext' & nm & em & ci & co & -> & _)]; [exact Hfind|].
  unfold find_existing. rewrite reservations_add_commit.
  apply find_app_some. exact Hfind.
Qed.

(** X11. Redelivery is answered the same way for ever: once a row carries a key,
    a delivery with that key arriving after any further requests is answered
    [duplicate] with the identifier of that same row, and writes nothing. *)
Theorem duplicate_after_traffic (st : Store) (reqs : list Request)
        (data : WebhookData) (existing : Reservation) :
  find_existing st (ota data) (data_external_id data) = Some existing ->
  ota_webhook (serve st reqs) (Some data)
  = (serve st reqs, Duplicate (res_id existing)).
Proof.
  intros Hfind. apply ota_webhook_existing.
  revert st Hfind. induction reqs as [|req reqs IH]; intros st Hfind; simpl.
  - exact Hfind.
  - apply IH. apply handle_find_existing. exact Hfind.
Qed.

Lemma duplicate_after_traffic_witness :
  let rt := mkRoomType 1 "Family Suite" 4 5 in
  let row := mkReservation 1 1 "booking.com" (Some "X1") "d" "d@x" 30 32 in
  let st := mkStore [rt] [row] in
  let reqs := [BookRoom 1 (POST (mkBookingForm "c" "c@x" (Some 30) (Some 32)));
               OtaWebhook (Some (mkWebhookData "booking.com" (Some "X2") 1 "e" "e@x"
                                               (Some 30) (Some 32)))] in
  ota_webhook (serve st reqs)
              (Some (mkWebhookData "booking.com" (Some "X1") 9 "z" "z@x" None None))
  = (serve st reqs, Duplicate 1).
Proof.
  intros rt row st reqs.
  apply (duplicate_after_traffic st reqs
           (mkWebhookData "booking.com" (Some "X1") 9 "z" "z@x" None None) row).
  reflexivity.
Defined.

(** ** Length of stay *)

Lemma handle_spans_valid st req :
  is_direct req = true -> spans_valid st -> spans_valid (handle st req).
Proof.
  intros Hdir Hv.
  destruct (handle_cases st req)
    as [-> | (rt & src & ext & nm & em & ci & co & -> & _ & _ & Hreq)]; [exact Hv|].
  destruct req as [id m | body]; [|discriminate].
  destruct Hreq as (_ & _ & Hlt).
  unfold spans_valid. rewrite reservations_add_commit.
  apply Forall_app. split; [exact Hv|]. constructor; [exact Hlt|constructor].
Qed.

(** X12. Direct bookings never write a stay of no night: if every row has
    check-in before check-out, every row still has after any sequence of
    requests to [book_room]. *)
Theorem direct_bookings_spans_valid (st : Store) (reqs : list Request) :
  forallb is_direct reqs = true -> spans_valid st -> spans_valid (serve st reqs).
Proof.
  revert st. induction reqs as [|req reqs IH]; intros st Hdir Hv; simpl.
  - exact Hv.
  - simpl in Hdir. apply andb_prop in Hdir. destruct Hdir as [Hd Hds].
    apply IH; [exact Hds|]. apply handle_spans_valid; assumption.
Qed.

Lemma direct_bookings_spans_valid_witness :
  let rt := mkRoomType 1 "Family Suite" 4 5 in
  let st := mkStore [rt] [mkReservation 1 1 "direct" None "a" "a@x" 10 12] in
  let reqs := [BookRoom 1 (POST (mkBookingForm "b" "b@x" (Some 14) (Some 12)));
               BookRoom 1 (POST (mkBookingForm "c" "c@x" (Some 12) (Some 14)));
               BookRoom 1 GET] in
  length (reservations (serve st reqs)) = 2%nat /\
  spans_valid (serve st reqs).
Proof.
  intros rt st reqs. split; [reflexivity|].
  apply (direct_bookings_spans_valid st reqs); [reflexivity|].
  constructor; [simpl; lia|constructor].
Defined.

(** ** What the reconciliation scan reports *)

Lemma In_rt_conflicts (rt : RoomType) (date_map : gmap Z (list Reservation))
      (c : Conflict) :
  In c (rt_conflicts rt date_map) <->
  exists d lst,
    date_map !! d = Some lst /\ Z.of_nat (length lst) > quantity rt /\
    c = mkConflict rt d (Z.of_nat (length lst)) lst.
Proof.
  unfold rt_conflicts. rewrite in_flat_map. split.
  - intros [[d lst] [Hin Hc]].
    apply list_elem_of_In, elem_of_map_to_list in Hin.
    unfold conflict_of in Hc.
    destruct (Z.of_nat (length lst) >? quantity rt) eqn:E; [|contradiction].
    destruct Hc as [<- | []]. exists d, lst. repeat split; auto. lia.
  - intros (d & lst & Hd & Hgt & ->). exists (d, lst). split.
    + apply list_elem_of_In, elem_of_map_to_list. exact Hd.
    + unfold conflict_of.
      destruct (Z.of_nat (length lst) >? quantity rt) eqn:E; [left; reflexivity|lia].
Qed.

Lemma In_admin_reconcile (st : Store) (c : Conflict) :
  In c (admin_reconcile st) <->
  exists rt d,
    In rt (room_types st) /\ covering st rt d <> [] /\
    occupancy st rt d > quantity rt /\
    c = mkConflict rt d (occupancy st rt d) (covering st rt d).
Proof.
  unfold admin_reconcile. rewrite in_flat_map. split.
  - intros [rt [Hin Hc]]. apply In_rt_conflicts in Hc.
    destruct Hc as (d & lst & Hd & Hgt & ->).
    rewrite build_date_map_lookup in Hd.
    exists rt, d. unfold occupancy, covering.
    destruct (List.filter (fun r => covers r d) (rt_reservations st rt)) as [|x l];
      [discriminate|].
    injection Hd as <-. repeat split; auto; discriminate.
  - intros (rt & d & Hin & Hne & Hgt & ->). exists rt. split; [exact Hin|].
    apply In_rt_conflicts. exists d, (covering st rt d). repeat split; auto.
    rewrite build_date_map_lookup. fold (covering st rt d).
    destruct (covering st rt d); [contradiction|reflexivity].
Qed.

(** X13. Every conflict [admin_reconcile] reports is a real one: it names a room
    type of the table and a day on which the reservations covering the day,
    which are exactly the ones it lists and counts, outnumber the quantity. *)
Theorem admin_reconcile_sound (st : Store) (c : Conflict) :
  In c (admin_reconcile st) ->
  In (c_room_type c) (room_types st) /\
  c_reservations c = covering st (c_room_type c) (c_date c) /\
  c_count c = occupancy st (c_room_type c) (c_date c) /\
  c_count c > quantity (c_room_type c) /\
  c_reservations c <> [].
Proof.
  intros Hin. apply In_admin_reconcile in Hin.
  destruct Hin as (rt & d & Hrt & Hne & Hgt & ->). simpl. auto.
Qed.

Lemma admin_reconcile_sound_witness :
  let rt := mkRoomType 1 "Family Suite" 4 1 in
  let r1 := mkReservation 1 1 "direct" None "a" "a@x" 10 12 in
  let r2 := mkReservation 2 1 "direct" None "b" "b@x" 11 13 in
  let st := mkStore [rt] [r1; r2] in
  let c := mkConflict rt 11 2 [r1; r2] in
  admin_reconcile st = [c] /\
  c_reservations c = covering st rt 11 /\ c_count c > quantity rt.
Proof.
  intros rt r1 r2 st c.
  assert (admin_reconcile st = [c]) as Heq by (vm_compute; reflexivity).
  split; [exact Heq|].
  destruct (admin_reconcile_sound st c) as (_ & H1 & _ & H2 & _).
  - rewrite Heq. left. reflexivity.
  - split; [exact H1|exact H2].
Defined.

(** X14. For quantities that are not negative, [admin_reconcile] reports nothing
    exactly when the capacity invariant holds. *)
Theorem admin_reconcile_empty_iff (st : Store) :
  (forall rt, In rt (room_types st) -> 0 <= quantity rt) ->
  (admin_reconcile st = [] <-> capacity_invariant st).
Proof.
  intros Hq. split.
  - intros Hnil rt d Hin.
    destruct (Z_le_gt_dec (occupancy st rt d) (quantity rt)) as [|Hgt]; [assumption|].
    exfalso.
    assert (In (mkConflict rt d (occupancy st rt d) (covering st rt d))
               (admin_reconcile st)) as Hc.
    { apply In_admin_reconcile. exists rt, d. repeat split; auto.
      intros Hcov. specialize (Hq rt Hin). unfold occupancy in Hgt.
      rewrite Hcov in Hgt. simpl in Hgt. lia. }
    rewrite Hnil in Hc. contradiction.
  - intros Hinv. destruct (admin_reconcile st) as [|c l] eqn:E; [reflexivity|].
    exfalso.
    assert (In c (admin_reconcile st)) as Hc by (rewrite E; left; reflexivity).
    apply In_admin_reconcile in Hc. destruct Hc as (rt & d & Hin & _ & Hgt & _).
    specialize (Hinv rt d Hin). lia.
Qed.

Lemma admin_reconcile_empty_iff_witness :
  let rt := mkRoomType 1 "Family Suite" 4 1 in
  let st := mkStore [rt] [mkReservation 1 1 "direct" None "a" "a@x" 10 12;
                          mkReservation 2 1 "direct" None "b" "b@x" 12 13] in
  admin_reconcile st = [] /\ capacity_invariant st.
Proof.
  intros rt st.
  assert (admin_reconcile st = []) as Hnil by (vm_compute; reflexivity).
  split; [exact Hnil|].
  apply (admin_reconcile_empty_iff st); [|exact Hnil].
  intros rt' [<- | []]. simpl. lia.
Defined.

Lemma serve_pk_and_capacity (st : Store) (reqs : list Request) :
  pk_unique st /\ capacity_invariant st ->
  pk_unique (serve st reqs) /\ capacity_invariant (serve st reqs).
Proof.
  apply (serve_keeps (fun s => pk_unique s /\ capacity_invariant s)).
  intros s req [Hpk Hinv]. apply handle_invariant; assumption.
Qed.

Lemma serve_reconcile_nil (st : Store) (reqs : list Request) :
  pk_unique st -> capacity_invariant st -> admin_reconcile (serve st reqs) = [].
Proof.
  intros Hpk Hinv.
  destruct (serve_pk_and_capacity st reqs (conj Hpk Hinv)) as [_ Hinv'].
  destruct (admin_reconcile (serve st reqs)) as [|c l] eqn:E; [reflexivity|].
  exfalso.
  assert (In c (admin_reconcile (serve st reqs))) as Hc by (rewrite E; left; reflexivity).
  apply In_admin_reconcile in Hc. destruct Hc as (rt & d & Hin & _ & Hgt & _).
  specialize (Hinv' rt d Hin). lia.
Qed.

(** X15. The scan stays silent behind the two booking routes: from a store with
    distinct room type ids in which the capacity invariant holds, after any
    sequence of requests [admin_reconcile] reports no conflict. *)
Theorem admin_reconcile_after_serve (st : Store) (reqs : list Request) :
  pk_unique st -> capacity_invariant st -> admin_reconcile (serve st reqs) = [].
Proof. apply serve_reconcile_nil. Qed.

Lemma admin_reconcile_after_serve_witness :
  let rt := mkRoomType 1 "Family Suite" 4 1 in
  let st := mkStore [rt] [] in
  let reqs :=
    [BookRoom 1 (POST (mkBookingForm "a" "a@x" (Some 10) (Some 12)));
     BookRoom 1 (POST (mkBookingForm "b" "b@x" (Some 11) (Some 13)));
     OtaWebhook (Some (mkWebhookData "booking.com" (Some "X1") 1 "d" "d@x"
                                     (Some 12) (Some 14)))] in
  length (reservations (serve st reqs)) = 2%nat /\
  admin_reconcile (serve st reqs) = [].
Proof.
  intros rt st reqs. split; [reflexivity|].
  apply (admin_reconcile_after_serve st reqs).
  - unfold pk_unique. simpl. apply NoDup_singleton.
  - intros rt' d [<- | []]. unfold occupancy, covering. simpl. lia.
Defined.

(** ** The availability feed and the booking routes *)

Lemma RoomType_get_handle st req id :
  RoomType_get (handle st req) id = RoomType_get st id.
Proof. unfold RoomType_get. rewrite handle_room_types. reflexivity. Qed.

(** X16. The feed and the check agree: a day of the feed shows a positive count
    exactly when a one-night stay starting that day passes [is_available]. *)
Theorem feed_positive_iff_available (st : Store) (today : Z) (name : string)
        (id : Z) (rt : RoomType) (feed : list SnapshotEntry) (e : SnapshotEntry) :
  RoomType_get st id = Some rt ->
  ota_push_availability st today name id = Some feed ->
  In e feed ->
  (0 < snap_available e <->
   is_available st rt (snap_date e) (snap_date e + 1) = (true, None)).
Proof.
  intros Hget Hfeed Hin.
  rewrite (ota_push_availability_feed st today name id rt Hget) in Hfeed.
  injection Hfeed as <-. unfold availability_feed in Hin.
  apply in_map_iff in Hin. destruct Hin as [i [<- _]]. simpl.
  rewrite is_available_true_iff. split.
  - intros Hpos d Hd. assert (d = today + i) as -> by lia. lia.
  - intros Hfree. specialize (Hfree (today + i) ltac:(lia)). lia.
Qed.

Lemma feed_positive_iff_available_witness :
  let rt := mkRoomType 1 "Family Suite" 4 1 in
  let st := mkStore [rt] [mkReservation 1 1 "direct" None "a" "a@x" 10 12] in
  (0 < 0 <-> is_available st rt 11 12 = (true, None)) /\
  (0 < 1 <-> is_available st rt 12 13 = (true, None)).
Proof.
  intros rt st.
  pose proof (fun e H => feed_positive_iff_available st 10 "booking.com" 1 rt
                           _ e eq_refl eq_refl H) as Hfeed.
  split.
  - apply (Hfeed (mkSnapshotEntry 11 0)). vm_compute. tauto.
  - apply (Hfeed (mkSnapshotEntry 12 1)). vm_compute. tauto.
Defined.

(** X17. A confirmed booking shows in the feed of its room type: the count of
    each day of the stay drops by one and the other days keep theirs. *)
Theorem feed_after_booking (st st' : Store) (id : Z) (form : BookingForm) (n : Z)
        (ci co : Z) (today : Z) (name : string) (feed : list SnapshotEntry) :
  book_room st id (POST form) = (st', Confirmed n) ->
  form_check_in form = Some ci -> form_check_out form = Some co ->
  ota_push_availability st today name id = Some feed ->
  ota_push_availability st' today name id
  = Some (map (fun e => mkSnapshotEntry (snap_date e)
                          (snap_available e
                           - (if (ci <=? snap_date e) && (snap_date e <? co)
                              then 1 else 0)))
              feed).
Proof.
  intros Hbook Hci Hco Hfeed. unfold book_room in Hbook.
  destruct (RoomType_get st id) as [rt|] eqn:Hget; [|discriminate].
  rewrite Hci, Hco in Hbook.
  destruct (ci >=? co) eqn:E; [discriminate|].
  destruct (is_available st rt ci co) as [[|] o] eqn:Hav; [|discriminate].
  simpl in Hbook. injection Hbook as <- <-.
  pose proof (is_available_spec st rt ci co) as Hspec. rewrite Hav in Hspec.
  destruct o; [contradiction|].
  rewrite (ota_push_availability_feed st today name id rt Hget) in Hfeed.
  injection Hfeed as <-.
  rewrite (ota_push_availability_feed _ today name id rt)
    by (unfold RoomType_get; exact Hget).
  f_equal. unfold availability_feed. rewrite map_map. apply map_ext. intros i.
  simpl.
  change (mkStore (room_types st) _)
    with (fst (add_commit st (rt_id rt) "direct" None (form_name form)
                          (form_email form) ci co)).
  rewrite occupancy_add_commit, Z.eqb_refl. simpl.
  destruct ((ci <=? today + i) && (today + i <? co)) eqn:Ecov; f_equal; [|lia].
  specialize (Hspec (today + i) ltac:(lia)). lia.
Qed.

Lemma feed_after_booking_witness :
  let rt := mkRoomType 1 "Family Suite" 4 2 in
  let st := mkStore [rt] [mkReservation 1 1 "direct" None "a" "a@x" 10 12] in
  let form := mkBookingForm "b" "b@x" (Some 11) (Some 13) in
  exists st' n feed,
    book_room st 1 (POST form) = (st', Confirmed n) /\
    ota_push_availability st 10 "booking.com" 1 = Some feed /\
    map snap_available (firstn 4 feed) = [1; 1; 2; 2] /\
    option_map (fun f => map snap_available (firstn 4 f))
               (ota_push_availability st' 10 "booking.com" 1)
    = Some [1; 0; 1; 2].
Proof.
  intros rt st form.
  eexists _, _, _. split; [reflexivity|]. split; [reflexivity|].
  split; [reflexivity|].
  rewrite (feed_after_booking st _ 1 form _ 11 13 10 "booking.com" _
             eq_refl eq_refl eq_refl eq_refl).
  reflexivity.
Defined.

(** * Accounts *)

Lemma find_email_none (users : list User) (e : string) :
  List.find (fun u => bool_decide (email u = e)) users = None <->
  forall x, In x users -> email x <> e.
Proof.
  induction users as [|u users IH]; simpl.
  - split; [intros _ x []|reflexivity].
  - destruct (bool_decide (email u = e)) eqn:E.
    + apply bool_decide_eq_true_1 in E. split; [discriminate|].
      intros Hall. exfalso. apply (Hall u); auto.
    + apply bool_decide_eq_false_1 in E. rewrite IH. split.
      * intros Hall x [<- | Hx]; auto.
      * intros Hall x Hx. apply Hall. right. exact Hx.
Qed.

Lemma next_user_id_fresh (users : list User) :
  forall u, In u users -> user_id u < next_user_id users.
Proof.
  unfold next_user_id. destruct (fold_max_bounds (map user_id users) 0) as [_ H2].
  intros u Hu. specialize (H2 (user_id u) (in_map user_id users u Hu)). lia.
Qed.

(** The two guards, [login_required] over [role_required('admin')], let only
    an authenticated user whose role is [admin] reach the view. *)
Lemma admin_users_guard `{Bcrypt} salt m cu users :
  admin_users salt m cu users
  = match cu with
    | None => (users, Unauthorized)
    | Some u => if bool_decide (role u = "admin"%string)
                then admin_users_view salt m cu users
                else (users, RedirectIndex)
    end.
Proof.
  unfold admin_users, login_required, role_required.
  destruct cu as [u|]; [|reflexivity].
  destruct (bool_decide (role u = "admin"%string)); reflexivity.
Qed.


(** X19. Whoever is not an authenticated admin cannot touch the user table: an
    anonymous caller is sent to the login handler and a caller with another
    role is redirected, the table staying as it was; and whenever the table
    does change the caller is an admin. *)
Theorem admin_users_admin_only `{Bcrypt} (salt : string) (m : UsersMethod)
        (cu : option User) (users : list User) :
  (cu = None -> admin_users salt m cu users = (users, Unauthorized)) /\
  (forall u, cu = Some u -> role u <> "admin"%string ->
             admin_users salt m cu users = (users, RedirectIndex)) /\
  (fst (admin_users salt m cu users) <> users ->
   exists u, cu = Some u /\ role u = "admin"%string).
Proof.
  rewrite admin_users_guard. split; [|split].
  - intros ->. reflexivity.
  - intros u -> Hr. rewrite (bool_decide_eq_false_2 _ Hr). reflexivity.
  - destruct cu as [u|]; simpl; [|congruence].
    destruct (bool_decide (role u = "admin"%string)) eqn:Er; simpl; [|congruence].
    apply bool_decide_eq_true_1 in Er. eauto.
Qed.

Lemma admin_users_admin_only_witness :
  let admin := mkUser 1 "admin@heritage.local" "h" "admin" in
  let clerk := mkUser 2 "clerk@heritage.local" "h" "staff" in
  let users := [admin; clerk] in
  let m := UsersPOST (mkUserForm "new@heritage.local" "secret" None) in
  admin_users (H := toy_bcrypt) "salt" m None users = (users, Unauthorized) /\
  admin_users (H := toy_bcrypt) "salt" m (Some clerk) users = (users, RedirectIndex) /\
  length (fst (admin_users (H := toy_bcrypt) "salt" m (Some admin) users)) = 3%nat.
Proof.
  intros admin clerk users m. split; [|split].
  - apply (proj1 (admin_users_admin_only (H := toy_bcrypt) "salt" m None users)).
    reflexivity.
  - apply (proj1 (proj2 (admin_users_admin_only (H := toy_bcrypt) "salt" m
                           (Some clerk) users)) clerk); [reflexivity|].
    simpl. discriminate.
  - reflexivity.
Defined.

Lemma admin_users_table `{Bcrypt} salt m cu users :
  fst (admin_users salt m cu users) = users \/
  exists form,
    m = UsersPOST form /\
    (forall x, In x users -> email x <> uf_email form) /\
    fst (admin_users salt m cu users)
    = users ++ [mkUser (next_user_id users) (uf_email form)
                       (generate_password_hash salt (uf_password form))
                       (default "staff"%string (uf_role form))].
Proof.
  rewrite admin_users_guard.
  destruct cu as [u|]; [|left; reflexivity].
  destruct (bool_decide (role u = "admin"%string)); [|left; reflexivity].
  unfold admin_users_view. destruct m as [|form]; [left; reflexivity|].
  destruct (bool_decide (uf_email form = ""%string) || _); [left; reflexivity|].
  destruct (List.find _ users) eqn:Ef; [left; reflexivity|].
  right. exists form. pose proof (proj1 (find_email_none _ _) Ef) as Hfree. auto.
Qed.

(** X20. E-mails and identifiers of users stay distinct under [admin_users]. *)
Theorem admin_users_unique `{Bcrypt} (salt : string) (m : UsersMethod)
        (cu : option User) (users : list User) :
  NoDup (map email users) -> NoDup (map user_id users) ->
  NoDup (map email (fst (admin_users salt m cu users))) /\
  NoDup (map user_id (fst (admin_users salt m cu users))).
Proof.
  intros He Hi.
  destruct (admin_users_table salt m cu users) as [-> | (form & _ & Hfree & ->)];
    [auto|].
  rewrite !map_app. simpl. split; apply NoDup_app.
  - split; [exact He|]. split; [|apply NoDup_singleton].
    intros x Hx Hx'. apply list_elem_of_singleton in Hx'. subst x.
    apply list_elem_of_In, in_map_iff in Hx. destruct Hx as [u [Heq Hu]].
    exact (Hfree u Hu Heq).
  - split; [exact Hi|]. split; [|apply NoDup_singleton].
    intros x Hx Hx'. apply list_elem_of_singleton in Hx'. subst x.
    apply list_elem_of_In, in_map_iff in Hx. destruct Hx as [u [Heq Hu]].
    apply next_user_id_fresh in Hu. lia.
Qed.

Lemma admin_users_unique_witness :
  let admin := mkUser 1 "admin@heritage.local" "h" "admin" in
  let users := [admin] in
  let m := UsersPOST (mkUserForm "admin@heritage.local" "other" (Some "admin")) in
  admin_users (H := toy_bcrypt) "salt" m (Some admin) users
  = (users, Served UserExists) /\
  NoDup (map email (fst (admin_users (H := toy_bcrypt) "salt" m (Some admin) users))).
Proof.
  intros admin users m. split; [reflexivity|].
  apply (admin_users_unique (H := toy_bcrypt) "salt" m (Some admin) users);
    simpl; apply NoDup_singleton.
Defined.

(** X21. An account made through [admin_users] can log in: with a sound hashing
    library, [login] with the posted e-mail and password succeeds, and the
    session it opens loads the new user with the posted role. *)
Theorem created_user_can_login `{Bcrypt} (salt : string) (form : UserForm)
        (cu : option User) (users users' listing : list User) (session : option Z) :
  bcrypt_sound ->
  admin_users salt (UsersPOST form) cu users
  = (users', Served (UsersPage true listing)) ->
  exists u,
    login users' session (LoginPOST (uf_email form) (uf_password form))
    = (Some (user_id u), LoggedIn) /\
    current_user users' (Some (user_id u)) = Some u /\
    In u users' /\
    email u = uf_email form /\
    role u = default "staff"%string (uf_role form).
Proof.
  intros Hsound Hmade.
  destruct (admin_users_table salt (UsersPOST form) cu users)
    as [Hsame | (form' & [= <-] & Hfree & Htab)].
  - exfalso. rewrite Hmade in Hsame. simpl in Hsame. subst users'.
    rewrite admin_users_guard in Hmade.
    destruct cu as [u|]; [|discriminate].
    destruct (bool_decide (role u = "admin"%string)); [|discriminate].
    unfold admin_users_view in Hmade.
    destruct (bool_decide (uf_email form = ""%string) || _); [discriminate|].
    destruct (List.find _ users); [discriminate|].
    injection Hmade as Hlen _. apply (f_equal (@length User)) in Hlen.
    rewrite List.length_app in Hlen. simpl in Hlen. lia.
  - rewrite Hmade in Htab. simpl in Htab. subst users'.
    set (u := mkUser (next_user_id users) (uf_email form)
                     (generate_password_hash salt (uf_password form))
                     (default "staff"%string (uf_role form))).
    exists u. split; [|split; [|split; [|split]]]; try reflexivity.
    + unfold login.
      rewrite (find_app_none _ users u); cycle 1.
      * apply find_email_none. exact Hfree.
      * apply bool_decide_eq_true_2. reflexivity.
      * unfold check_password. simpl. rewrite Hsound. reflexivity.
    + unfold current_user, load_user.
      apply find_app_none; [|simpl; apply Z.eqb_refl].
      destruct (List.find _ users) as [x|] eqn:Ef; [|reflexivity].
      apply find_some in Ef. destruct Ef as [Hx Hid].
      apply next_user_id_fresh in Hx. simpl in Hid. lia.
    + apply in_or_app. right. left. reflexivity.
Qed.

Lemma created_user_can_login_witness :
  let admin := mkUser 1 "admin@heritage.local" "password123" "admin" in
  let form := mkUserForm "clerk@heritage.local" "secret" None in
  let clerk := mkUser 2 "clerk@heritage.local" "secret" "staff" in
  admin_users (H := toy_bcrypt) "salt" (UsersPOST form) (Some admin) [admin]
  = ([admin; clerk], Served (UsersPage true [clerk; admin])) /\
  exists u,
    login (H := toy_bcrypt) [admin; clerk] None (LoginPOST "clerk@heritage.local" "secret")
    = (Some (user_id u), LoggedIn) /\
    current_user [admin; clerk] (Some (user_id u)) = Some u /\
    In u [admin; clerk] /\
    email u = "clerk@heritage.local"%string /\ role u = "staff"%string.
Proof.
  intros admin form clerk. split; [reflexivity|].
  apply (created_user_can_login (H := toy_bcrypt) "salt" form (Some admin) [admin]
           [admin; clerk] [clerk; admin] None).
  - intros salt password. simpl. apply String.eqb_refl.
  - reflexivity.
Defined.

(** X22. [login] opens a session only for a user of the table whose e-mail is
    the posted one and whose stored hash checks against the posted
    password; every other request leaves the session as it was. *)
Theorem login_sound `{Bcrypt} (users : list User) (session : option Z)
        (m : LoginMethod) :
  match login users session m with
  | (session', LoggedIn) =>
      exists u e password,
        m = LoginPOST e password /\ In u users /\ email u = e /\
        check_password u password = true /\ session' = Some (user_id u)
  | (session', _) => session' = session
  end.
Proof.
  unfold login. destruct m as [|e password]; [reflexivity|].
  destruct (List.find _ users) as [u|] eqn:Ef; [|reflexivity].
  destruct (check_password u password) eqn:Ec; [|reflexivity].
  apply find_some in Ef. destruct Ef as [Hin He].
  apply bool_decide_eq_true_1 in He. exists u, e, password. auto.
Qed.

(** * Seeding *)

Lemma seed_cases `{Bcrypt} (salt : string) (db : Database) :
  (db_properties db <> [] /\ seed salt db = (db, AlreadySeeded)) \/
  (db_properties db = [] /\
   snd (seed salt db) <> AlreadySeeded /\
   db_properties (fst (seed salt db)) <> [] /\
   reservations (db_store (fst (seed salt db))) = reservations (db_store db) /\
   room_types (db_store (fst (seed salt db)))
   = room_types (db_store db)
     ++ [mkRoomType (next_key (map rt_id (room_types (db_store db)))) "Deluxe Double" 2 5;
         mkRoomType (next_key (map rt_id (room_types (db_store db))) + 1) "Family Suite" 4 2;
         mkRoomType (next_key (map rt_id (room_types (db_store db))) + 2) "Standard Room" 2 10]).
Proof.
  unfold seed. destruct (db_properties db) as [|p ps] eqn:Hp.
  - right. split; [reflexivity|]. simpl.
    destruct (List.find _ (db_users db)); simpl; rewrite ?Hp; simpl;
      repeat split; discriminate.
  - left. split; [discriminate|].
    replace (0 <? Z.of_nat (length (p :: ps))) with true; [reflexivity|].
    symmetry. apply Z.ltb_lt. simpl length. lia.
Qed.

(** X23. Seeding is idempotent: run again, with whatever salt, it answers
    [Already seeded] and leaves the database as the first run left it. *)
Theorem seed_idempotent `{Bcrypt} (salt salt' : string) (db : Database) :
  seed salt' (fst (seed salt db)) = (fst (seed salt db), AlreadySeeded).
Proof.
  destruct (seed_cases salt db) as [[Hne Heq] | (_ & _ & Hne & _)].
  - rewrite Heq. simpl.
    destruct (seed_cases salt' db) as [[_ Heq'] | [Hnil _]]; [exact Heq'|contradiction].
  - destruct (seed_cases salt' (fst (seed salt db))) as [[_ Heq'] | [Hnil _]];
      [exact Heq'|contradiction].
Qed.

(** X24. When no property exists but a user already has the e-mail of the seeded
    admin, seeding writes the property, the hotels and the room types,
    fails on the user, and leaves the user table as it was: the admin
    account is not created, and no later run creates it. *)
Theorem seed_email_taken `{Bcrypt} (salt salt' : string) (db : Database) (u : User) :
  db_properties db = [] ->
  In u (db_users db) -> email u = "admin@heritage.local"%string ->
  snd (seed salt db) = SeedIntegrityError /\
  db_users (fst (seed salt db)) = db_users db /\
  length (db_properties (fst (seed salt db))) = 1%nat /\
  length (db_hotels (fst (seed salt db))) = (length (db_hotels db) + 2)%nat /\
  length (room_types (db_store (fst (seed salt db))))
  = (length (room_types (db_store db)) + 3)%nat /\
  db_users (fst (seed salt' (fst (seed salt db)))) = db_users db.
Proof.
  intros Hp Hu He.
  assert (seed salt' (fst (seed salt db)) = (fst (seed salt db), AlreadySeeded)) as Hagain.
  { destruct (seed_cases salt db) as [[Hne _] | (_ & _ & Hne & _)]; [contradiction|].
    destruct (seed_cases salt' (fst (seed salt db))) as [[_ Heq'] | [Hnil _]];
      [exact Heq'|contradiction]. }
  rewrite Hagain. unfold seed. rewrite Hp. simpl.
  destruct (List.find _ (db_users db)) eqn:Ef.
  - simpl. rewrite ?Hp, ?List.length_app. simpl. repeat split; lia.
  - exfalso. apply (proj1 (find_email_none _ _) Ef u Hu). exact He.
Qed.

Lemma seed_email_taken_witness :
  let u := mkUser 4 "admin@heritage.local" "old" "staff" in
  let db := mkDatabase [] [] [] [u] (mkStore [] []) in
  snd (seed (H := toy_bcrypt) "s" db) = SeedIntegrityError /\
  db_users (fst (seed (H := toy_bcrypt) "s" db)) = [u] /\
  map rt_id (room_types (db_store (fst (seed (H := toy_bcrypt) "s" db)))) = [1; 2; 3].
Proof.
  intros u db.
  destruct (seed_email_taken (H := toy_bcrypt) "s" "s" db u eq_refl
              (or_introl eq_refl) eq_refl) as (H1 & H2 & _).
  split; [exact H1|]. split; [exact H2|reflexivity].
Defined.

Lemma next_key_fresh (keys : list Z) : forall k, In k keys -> k < next_key keys.
Proof.
  unfold next_key. destruct (fold_max_bounds keys 0) as [_ H2].
  intros k Hk. specialize (H2 k Hk). lia.
Qed.

(** X25. Seeding keeps the engine's invariants: distinct room type ids, every
    reservation on a room type of the table, and the capacity invariant
    hold after [seed] whenever they held before. *)
Theorem seed_keeps_invariants `{Bcrypt} (salt : string) (db : Database) :
  pk_unique (db_store db) -> fk_valid (db_store db) ->
  capacity_invariant (db_store db) ->
  pk_unique (db_store (fst (seed salt db))) /\
  fk_valid (db_store (fst (seed salt db))) /\
  capacity_invariant (db_store (fst (seed salt db))).
Proof.
  intros Hpk Hfk Hinv.
  destruct (seed_cases salt db) as [[_ ->] | (_ & _ & _ & Hres & Hrts)]; [auto|].
  set (st := db_store db) in *. set (st' := db_store (fst (seed salt db))) in *.
  set (rid := next_key (map rt_id (room_types st))) in *.
  assert (forall rt, In rt (room_types st) -> rt_id rt < rid) as Hfresh.
  { intros rt Hrt. apply next_key_fresh. apply in_map. exact Hrt. }
  split; [|split].
  - unfold pk_unique. rewrite Hrts, map_app. apply NoDup_app.
    split; [exact Hpk|]. split.
    + intros x Hx Hx'. apply list_elem_of_In, in_map_iff in Hx.
      destruct Hx as [rt [<- Hrt]]. apply Hfresh in Hrt.
      apply list_elem_of_In in Hx'. simpl in Hx'. lia.
    + simpl. repeat (apply NoDup_cons; split;
                     [rewrite list_elem_of_In; simpl; lia|]).
      apply NoDup_nil_2.
  - intros r Hr. rewrite Hres in Hr. destruct (Hfk r Hr) as [rt [Hrt Hid]].
    exists rt. split; [|exact Hid]. rewrite Hrts. apply in_or_app. left. exact Hrt.
  - intros rt d Hrt. rewrite Hrts in Hrt. apply in_app_or in Hrt.
    unfold occupancy, covering, rt_reservations. rewrite Hres.
    destruct Hrt as [Hold | Hnew].
    + exact (Hinv rt d Hold).
    + replace (List.filter (fun r => room_type_id r =? rt_id rt) (reservations st))
        with (@nil Reservation).
      * simpl. simpl in Hnew. destruct Hnew as [<- | [<- | [<- | []]]]; simpl; lia.
      * symmetry. apply find_none_filter_nil.
        destruct (List.find _ (reservations st)) as [r|] eqn:Ef; [|reflexivity].
        exfalso. apply find_some in Ef. destruct Ef as [Hr Hid].
        destruct (Hfk r Hr) as [rt0 [Hrt0 Hid0]]. apply Hfresh in Hrt0.
        simpl in Hnew. destruct Hnew as [<- | [<- | [<- | []]]]; simpl in Hid; lia.
Qed.

Lemma seed_keeps_invariants_witness :
  let rt := mkRoomType 7 "Annex" 2 1 in
  let db := mkDatabase [] [] [] []
              (mkStore [rt] [mkReservation 1 7 "direct" None "a" "a@x" 10 12]) in
  map rt_id (room_types (db_store (fst (seed (H := toy_bcrypt) "s" db)))) = [7; 8; 9; 10] /\
  pk_unique (db_store (fst (seed (H := toy_bcrypt) "s" db))) /\
  fk_valid (db_store (fst (seed (H := toy_bcrypt) "s" db))) /\
  capacity_invariant (db_store (fst (seed (H := toy_bcrypt) "s" db))).
Proof.
  intros rt db. split; [reflexivity|].
  apply (seed_keeps_invariants (H := toy_bcrypt) "s" db).
  - unfold pk_unique. simpl. apply NoDup_singleton.
  - intros r [<- | []]. exists rt. split; [left|]; reflexivity.
  - intros rt' d [<- | []]. unfold occupancy, covering. simpl.
    destruct (covers _ d); simpl; lia.
Defined.

(** X26. The application as first started. On an empty database, with a sound
    hashing library, seeding succeeds; the seeded admin can log in with the
    seeded password and holds the role [admin]; and whatever requests the
    booking routes then serve, the reconciliation scan reports nothing. *)
Theorem seed_fresh_database `{Bcrypt} (salt : string) (reqs : list Request) :
  bcrypt_sound ->
  snd (seed salt empty_database) = Seeded /\
  (exists admin,
      login (db_users (fst (seed salt empty_database))) None
            (LoginPOST "admin@heritage.local" "password123")
      = (Some (user_id admin), LoggedIn) /\
      current_user (db_users (fst (seed salt empty_database))) (Some (user_id admin))
      = Some admin /\
      role admin = "admin"%string) /\
  admin_reconcile (serve (db_store (fst (seed salt empty_database))) reqs) = [].
Proof.
  intros Hsound. split; [reflexivity|]. split.
  - exists (mkUser 1 "admin@heritage.local"
                   (generate_password_hash salt "password123") "admin").
    unfold login. simpl. unfold check_password. simpl.
    rewrite Hsound. split; [reflexivity|]. split; reflexivity.
  - apply serve_reconcile_nil.
    + unfold pk_unique. simpl.
      repeat (apply NoDup_cons; split; [rewrite list_elem_of_In; simpl; lia|]).
      apply NoDup_nil_2.
    + intros rt d Hrt. unfold occupancy, covering. simpl.
      simpl in Hrt. destruct Hrt as [<- | [<- | [<- | []]]]; simpl; lia.
Qed.

Lemma seed_fresh_database_witness :
  let reqs := [BookRoom 2 (POST (mkBookingForm "a" "a@x" (Some 10) (Some 12)));
               BookRoom 2 (POST (mkBookingForm "b" "b@x" (Some 10) (Some 12)));
               BookRoom 2 (POST (mkBookingForm "c" "c@x" (Some 11) (Some 13)))] in
  length (reservations (serve (db_store (fst (seed (H := toy_bcrypt) "s" empty_database)))
                              reqs)) = 2%nat /\
  admin_reconcile (serve (db_store (fst (seed (H := toy_bcrypt) "s" empty_database))) reqs)
  = [].
Proof.
  intros reqs. split; [reflexivity|].
  apply (seed_fresh_database (H := toy_bcrypt) "s" reqs).
  intros salt password. simpl. apply String.eqb_refl.
Defined.

(** * The dashboard query *)

Lemma filter_filter {A : Type} (f g : A -> bool) (l : list A) :
  List.filter g (List.filter f l) = List.filter (fun x => f x && g x) l.
Proof.
  induction l as [|x l IH]; simpl; [reflexivity|].
  destruct (f x); simpl; [destruct (g x); rewrite IH; reflexivity|exact IH].
Qed.

(** X27. The date window of the dashboard is [Reservation.overlaps]: with both
    [date_from] and [date_to] given, the query selects, among the rows the id
    filters let through, exactly those that overlap [[date_from, date_to)]. *)
Theorem dashboard_window_overlaps (db : Database) (pid hid rid : option Z) (df dt : Z) :
  dashboard_query db (mkDashboardArgs pid hid rid (DateGiven df) (DateGiven dt))
  = option_map (List.filter (fun r => overlaps r df dt))
               (dashboard_query db (mkDashboardArgs pid hid rid DateAbsent DateAbsent)).
Proof.
  unfold dashboard_query. simpl. f_equal.
  rewrite filter_filter. apply filter_ext. intros r.
  apply eq_true_iff_eq. rewrite overlaps_iff. lia.
Qed.

(** X28. An id parameter equal to 0 filters nothing: the query answers as if the
    parameter were absent. *)
Theorem dashboard_zero_id_ignored (db : Database) (pid hid rid : option Z)
        (from to : DateArg) :
  dashboard_query db (mkDashboardArgs (Some 0) hid rid from to)
  = dashboard_query db (mkDashboardArgs None hid rid from to) /\
  dashboard_query db (mkDashboardArgs pid (Some 0) rid from to)
  = dashboard_query db (mkDashboardArgs pid None rid from to) /\
  dashboard_query db (mkDashboardArgs pid hid (Some 0) from to)
  = dashboard_query db (mkDashboardArgs pid hid None from to).
Proof. repeat split; reflexivity. Qed.

Lemma dashboard_query_incl (db : Database) (args : DashboardArgs)
      (rows : list Reservation) :
  dashboard_query db args = Some rows ->
  incl rows (List.filter (id_filters db args) (reservations (db_store db))).
Proof.
  unfold dashboard_query. intros Hq.
  destruct (arg_date_from args) as [| |df], (arg_date_to args) as [| |dt];
    try discriminate; injection Hq as <-.
  - apply incl_refl.
  - apply incl_filter.
  - apply incl_filter.
  - eapply incl_tran; apply incl_filter.
Qed.

(** X29. Without parameters the dashboard shows exactly the reservations whose
    room type, hotel and property all exist; a reservation with a link
    missing is shown under no choice of parameters. *)
Theorem dashboard_shows_joined_rows (db : Database) (r : Reservation) :
  (forall rows,
      dashboard_query db (mkDashboardArgs None None None DateAbsent DateAbsent)
      = Some rows ->
      (In r rows <-> In r (reservations (db_store db)) /\ joined db r <> None)) /\
  (joined db r = None ->
   forall args rows, dashboard_query db args = Some rows -> ~ In r rows).
Proof.
  split.
  - intros rows [= <-]. rewrite filter_In. unfold id_filters. simpl.
    destruct (joined db r) as [[[rt h] p]|]; simpl; split;
      intros [H1 H2]; split; auto; discriminate.
  - intros Hnone args rows Hq Hin.
    apply (dashboard_query_incl db args rows Hq) in Hin.
    apply filter_In in Hin. destruct Hin as [_ Hf]. unfold id_filters in Hf.
    rewrite Hnone in Hf. discriminate.
Qed.

(** * Foreign keys *)

Lemma handle_fk_valid st req : fk_valid st -> fk_valid (handle st req).
Proof.
  intros Hfk.
  destruct (handle_cases st req)
    as [-> | (rt & src & ext & nm & em & ci & co & -> & Hrt & _)]; [exact Hfk|].
  intros r Hr. rewrite reservations_add_commit in Hr. rewrite room_types_add_commit.
  apply in_app_or in Hr. destruct Hr as [Hr | [<- | []]].
  - exact (Hfk r Hr).
  - exists rt. split; [exact Hrt|reflexivity].
Qed.

(** X30. The routes never write a reservation on a room type that is not in the
    table: if every reservation belongs to a room type of the table, every
    reservation still does after any sequence of requests. *)
Theorem serve_fk_valid (st : Store) (reqs : list Request) :
  fk_valid st -> fk_valid (serve st reqs).
Proof. apply (serve_keeps fk_valid). apply handle_fk_valid. Qed.

Lemma serve_fk_valid_witness :
  let rt := mkRoomType 1 "Family Suite" 4 2 in
  let st := mkStore [rt] [] in
  let reqs := [BookRoom 1 (POST (mkBookingForm "a" "a@x" (Some 10) (Some 12)));
               BookRoom 5 (POST (mkBookingForm "b" "b@x" (Some 10) (Some 12)));
               OtaWebhook (Some (mkWebhookData "booking.com" (Some "X1") 5 "d" "d@x"
                                               (Some 10) (Some 12)))] in
  map room_type_id (reservations (serve st reqs)) = [1] /\
  fk_valid (serve st reqs).
Proof.
  intros rt st reqs. split; [reflexivity|].
  apply (serve_fk_valid st reqs). intros r [].
Defined.
